(** * Proof-of-ownership deduplication server: a shallow embedding

    The development follows the three Python modules of the repository:
    [utils.py] (block segmenter, mask generator), [client.py] (claimant side
    proof) and [server.py] (server side proof, the three request handlers and
    the [file_db] dictionary they share).

    Conventions.
    - A Python [bytes] value is a [list byte].
    - A Python [str] is a Rocq [string], read as the UTF-8 encoding of the
      text: concatenation, equality, emptiness and [.encode()] (the only
      operations the code applies to strings) commute with that reading.
    - A Python [int] is a [Z]; list indices and lengths are [nat].
    - A JSON / form field that may be absent or [null] is an [option]; a
      tag or proof field that is present is a text.
    - The files are a map from path text to content. What [file.save] does
      to them is decided by the operating system, not by the handler: it
      comes with the upload as a [save_result].
    - [hashlib.sha256] is the function [SHA256.sha256] below, written from
      FIPS 180-4; a hasher object is the list of bytes fed to it so far. *)

From Stdlib Require Import ZArith NArith Lia List.
From Stdlib Require Import Strings.Byte Strings.Ascii Strings.String.
From Stdlib Require Import DecimalString.
From stdpp Require Import gmap strings list.
From Equations.Prop Require Import Equations Logic.

Local Open Scope Z_scope.

(** ** SHA-256 (the [hashlib] primitive) *)

Module SHA256.

Definition w32 : Z := Eval vm_compute in 2 ^ 32.

(** The 32 low bits. *)
Definition low32 (x : Z) : Z := Z.land x (Z.pred w32).

Definition add32 (x y : Z) : Z := low32 (x + y).

Definition rotr (n x : Z) : Z :=
  Z.lor (Z.shiftr x n) (low32 (Z.shiftl x (32 - n))).

Definition shr (n x : Z) : Z := Z.shiftr x n.

Definition not32 (x : Z) : Z := Z.lxor x (Z.pred w32).

Definition Ch (x y z : Z) : Z :=
  Z.lxor (Z.land x y) (Z.land (not32 x) z).

Definition Maj (x y z : Z) : Z :=
  Z.lxor (Z.lxor (Z.land x y) (Z.land x z)) (Z.land y z).

Definition Sigma0 (x : Z) : Z := Z.lxor (Z.lxor (rotr 2 x) (rotr 13 x)) (rotr 22 x).
Definition Sigma1 (x : Z) : Z := Z.lxor (Z.lxor (rotr 6 x) (rotr 11 x)) (rotr 25 x).
Definition sigma0 (x : Z) : Z := Z.lxor (Z.lxor (rotr 7 x) (rotr 18 x)) (shr 3 x).
Definition sigma1 (x : Z) : Z := Z.lxor (Z.lxor (rotr 17 x) (rotr 19 x)) (shr 10 x).

(** The round constants are the first 32 fractional bits of the cube roots
    of the first 64 primes, the initial state those of the square roots of
    the first 8 primes; both tables are computed rather than transcribed. *)

Definition is_prime (n : nat) : bool :=
  forallb (fun d => negb (Nat.eqb (n mod d) 0)) (seq 2 (n - 2)).

Definition primes (count : nat) : list Z :=
  map Z.of_nat (take count (List.filter is_prime (seq 2 310))).

Fixpoint icbrt_go (bits : nat) (n r : Z) : Z :=
  match bits with
  | O => r
  | S b =>
      let c := r + 2 ^ Z.of_nat b in
      icbrt_go b n (if c * c * c <=? n then c else r)
  end.

Definition icbrt (n : Z) : Z := icbrt_go 40 n 0.

Definition K : list Z :=
  Eval vm_compute in map (fun p => icbrt (p * 2 ^ 96) mod w32) (primes 64).

Definition H0 : list Z :=
  Eval vm_compute in map (fun p => Z.sqrt (p * 2 ^ 64) mod w32) (primes 8).

Definition byte_of_Z (z : Z) : byte :=
  match Byte.of_N (Z.to_N (z mod 256)) with
  | Some b => b
  | None => x00
  end.

Definition Z_of_byte (b : byte) : Z := Z.of_N (Byte.to_N b).

(** Big-endian encodings. *)
Fixpoint be_bytes (width : nat) (z : Z) : list byte :=
  match width with
  | O => []
  | S w => byte_of_Z (Z.shiftr z (8 * Z.of_nat w)) :: be_bytes w z
  end.

Definition be_word (bs : list byte) : Z :=
  fold_left (fun acc b => acc * 256 + Z_of_byte b) bs 0.

(** Padding: a [0x80] byte, zeros up to 56 mod 64, the bit length on 8 bytes. *)
Definition pad (msg : list byte) : list byte :=
  let len := Z.of_nat (length msg) in
  let zeros := Z.to_nat ((55 - len) mod 64) in
  msg ++ x80 :: repeat x00 zeros ++ be_bytes 8 (8 * len).

Fixpoint words (count : nat) (bs : list byte) : list Z :=
  match count with
  | O => []
  | S c => be_word (take 4 bs) :: words c (drop 4 bs)
  end.

Definition word_at (w : list Z) (i : nat) : Z := nth i w 0.

(** Message schedule: [w] holds the words [W_0 .. W_(t-1)]. *)
Fixpoint schedule (more : nat) (w : list Z) : list Z :=
  match more with
  | O => w
  | S m =>
      let t := length w in
      let wt := add32 (add32 (sigma1 (word_at w (t - 2))) (word_at w (t - 7)))
                      (add32 (sigma0 (word_at w (t - 15))) (word_at w (t - 16))) in
      schedule m (w ++ [wt])
  end.

Record regs := Regs { ra : Z; rb : Z; rc : Z; rd : Z; re : Z; rf : Z; rg : Z; rh : Z }.

Definition round (s : regs) (kw : Z * Z) : regs :=
  let t1 := add32 (add32 (add32 (rh s) (Sigma1 (re s))) (Ch (re s) (rf s) (rg s)))
                  (add32 (fst kw) (snd kw)) in
  let t2 := add32 (Sigma0 (ra s)) (Maj (ra s) (rb s) (rc s)) in
  Regs (add32 t1 t2) (ra s) (rb s) (rc s) (add32 (rd s) t1) (re s) (rf s) (rg s).

Definition regs_of (h : list Z) : regs :=
  Regs (word_at h 0) (word_at h 1) (word_at h 2) (word_at h 3)
       (word_at h 4) (word_at h 5) (word_at h 6) (word_at h 7).

Definition list_of (s : regs) : list Z :=
  [ra s; rb s; rc s; rd s; re s; rf s; rg s; rh s].

Definition compress (h : list Z) (chunk : list byte) : list Z :=
  let w := schedule 48 (words 16 chunk) in
  let s := fold_left round (combine K w) (regs_of h) in
  map (fun p => add32 (fst p) (snd p)) (combine h (list_of s)).

Fixpoint chunks (count : nat) (bs : list byte) : list (list byte) :=
  match count with
  | O => []
  | S c => take 64 bs :: chunks c (drop 64 bs)
  end.

Definition sha256 (msg : list byte) : list byte :=
  let padded := pad msg in
  let h := fold_left compress (chunks (length padded / 64) padded) H0 in
  concat (map (be_bytes 4) h).

End SHA256.

Definition hex_digit (n : N) : ascii :=
  match String.get (N.to_nat n) "0123456789abcdef" with
  | Some c => c
  | None => "0"%char
  end.

(** [bytes.hex()]: two lowercase hexadecimal digits per byte. *)
Fixpoint hex (bs : list byte) : string :=
  match bs with
  | [] => EmptyString
  | b :: rest =>
      String (hex_digit (Byte.to_N b / 16))
        (String (hex_digit (Byte.to_N b mod 16)) (hex rest))
  end.


(** ** Exceptions and results *)

Inductive exn : Type :=
| OSError                       (* [open] failed *)
| ValueError (message : string)
| IndexError
| TypeError.

Inductive result (A : Type) : Type :=
| Ok (a : A)
| Raise (e : exn).
Arguments Ok {A} a.
Arguments Raise {A} e.

Global Instance result_ret : MRet result := fun _ a => Ok a.
Global Instance result_bind : MBind result := fun _ _ f m =>
  match m with
  | Ok a => f a
  | Raise e => Raise e
  end.

(** [l[i]] on a Python list. *)
Definition index {A} (l : list A) (i : nat) : result A :=
  match l !! i with
  | Some a => Ok a
  | None => Raise IndexError
  end.

(** [for i in range(lo, hi): acc = body(i, acc)]. *)
Fixpoint for_each {A} (idxs : list nat) (body : nat -> A -> result A) (acc : A) : result A :=
  match idxs with
  | [] => Ok acc
  | i :: rest => acc' ← body i acc; for_each rest body acc'
  end.

Definition range (lo hi : nat) : list nat := seq lo (hi - lo).

(** ** utils.py *)

Definition BLOCK_SIZE : nat := 4096.

Definition sha256 : list byte -> list byte := SHA256.sha256.

(** [str.encode()] and [str(int)]. *)
Definition encode (s : string) : list byte := list_byte_of_string s.
Definition str (n : Z) : string := NilZero.string_of_int (Z.to_int n).

(** A hasher object: [update] appends, [digest] hashes what was fed. *)
Definition hasher : Type := list byte.
Definition new_hasher : hasher := [].
Definition update (h : hasher) (data : list byte) : hasher := h ++ data.
Definition digest (h : hasher) : list byte := sha256 h.
Definition hexdigest (h : hasher) : string := hex (digest h).

(** An open binary file is the list of bytes not read yet; [f.read(size)]
    returns at most [size] of them and advances. *)
Definition read (size : nat) (f : list byte) : list byte * list byte :=
  (take size f, drop size f).

(** The [while True] loop of [get_file_blocks] on an open file. *)
Equations? read_blocks (f : list byte) : list (list byte) by wf (length f) lt :=
  read_blocks f with inspect (read BLOCK_SIZE f) := {
    | exist _ ([], _) _ => [];
    | exist _ (block, f') _ => block :: read_blocks f' }.
Proof.
  assert (0 < BLOCK_SIZE)%nat by (unfold BLOCK_SIZE; lia). rewrite length_drop.
  match goal with H : take _ ?f = _ :: _ |- _ =>
    destruct f; [by rewrite take_nil in H|] end.
  cbn [length]. lia.
Defined.

Definition open (d : gmap string (list byte)) (filepath : string) : result (list byte) :=
  match d !! filepath with
  | Some content => Ok content
  | None => Raise OSError
  end.

(** [list(get_file_blocks(filepath))]. *)
Definition get_file_blocks (d : gmap string (list byte)) (filepath : string)
  : result (list (list byte)) :=
  f ← open d filepath; Ok (read_blocks f).

(** The [while True] loop of [get_file_tag]: every chunk read is fed to the
    hasher. *)
Equations? update_chunks (h : hasher) (f : list byte) : hasher by wf (length f) lt :=
  update_chunks h f with inspect (read BLOCK_SIZE f) := {
    | exist _ ([], _) _ => h;
    | exist _ (chunk, f') _ => update_chunks (update h chunk) f' }.
Proof.
  assert (0 < BLOCK_SIZE)%nat by (unfold BLOCK_SIZE; lia). rewrite length_drop.
  match goal with H : take _ ?f = _ :: _ |- _ =>
    destruct f; [by rewrite take_nil in H|] end.
  cbn [length]. lia.
Defined.

Definition get_file_tag (d : gmap string (list byte)) (filepath : string) : result string :=
  let h := new_hasher in
  f ← open d filepath;
  let h := update_chunks h f in
  Ok (hexdigest h).

Definition prg (seed : string) (index : Z) : list byte :=
  let prg_hasher := new_hasher in
  let prg_hasher := update prg_hasher (encode seed) in
  let prg_hasher := update prg_hasher (encode (str index)) in
  digest prg_hasher.

(** ** client.py *)

Definition too_small_message : string :=
  "File is too small for this proof scheme (must have at least two blocks).".

(** The body of [generate_user_proof] once [blocks] is bound. *)
Definition user_resp_gen (blocks : list (list byte)) (seed : string) : result string :=
  if (length blocks <? 2)%nat then Raise (ValueError too_small_message)
  else
    b0 ← index blocks 0;
    b1 ← index blocks 1;
    let para1 := sha256 (b0 ++ prg seed 1) in
    let para2 := sha256 (b1 ++ prg seed 2) in
    let resp := sha256 (para1 ++ para2) in
    resp ← for_each (range 2 (length blocks)) (fun i resp =>
              block ← index blocks i;
              let block_hash := sha256 (block ++ prg seed (Z.of_nat i + 1)) in
              Ok (sha256 (resp ++ block_hash))) resp;
    Ok (hex resp).

Definition generate_user_proof (d : gmap string (list byte)) (filepath seed : string)
  : result string :=
  blocks ← get_file_blocks d filepath; user_resp_gen blocks seed.

(** ** server.py *)

Definition SERVER_STORAGE_PATH : string := "server_storage/".

(** The body of [generate_server_proof] once [blocks] is bound; the small
    content case returns [None], it does not raise. *)
Definition server_resp_gen (blocks : list (list byte)) (seed : string)
  : result (option string) :=
  if (length blocks <? 2)%nat then Ok None
  else
    b0 ← index blocks 0;
    b1 ← index blocks 1;
    let para1 := sha256 (b0 ++ prg seed 1) in
    let para2 := sha256 (b1 ++ prg seed 2) in
    let resp := sha256 (para1 ++ para2) in
    resp ← for_each (range 2 (length blocks)) (fun i resp =>
              block ← index blocks i;
              let block_hash := sha256 (block ++ prg seed (Z.of_nat i + 1)) in
              Ok (sha256 (resp ++ block_hash))) resp;
    Ok (Some (hex resp)).

Definition generate_server_proof (d : gmap string (list byte)) (filepath seed : string)
  : result (option string) :=
  blocks ← get_file_blocks d filepath; server_resp_gen blocks seed.

(** The state the handlers share: the [file_db] dictionary (it holds both
    [tag -> filepath] and [tag + '_seed' -> seed] entries), the files under
    the storage directory, and the operating system's entropy source, read
    sequentially by [secrets]. *)
Record server : Type := Server {
  file_db : gmap string string;
  disk : gmap string (list byte);
  entropy : nat -> byte;
  drawn : nat
}.

Definition set_file_db (db : gmap string string) (st : server) : server :=
  Server db (disk st) (entropy st) (drawn st).

(** [secrets.token_bytes(n)] and [secrets.token_hex(n)]. *)
Definition token_bytes (n : nat) (st : server) : list byte * server :=
  (map (entropy st) (seq (drawn st) n),
   Server (file_db st) (disk st) (entropy st) (drawn st + n)).

Definition token_hex (n : nat) (st : server) : string * server :=
  let (bs, st') := token_bytes n st in (hex bs, st').

(** What a handler answers: the JSON status with its HTTP code, or the
    exception that escaped it. *)
Inductive response : Type :=
| RespError (code : nat) (message : string)
| RespNew
| RespExists (seed : string)
| RespUploaded (filename : string)
| RespVerified
| RespFailed
| RespRaised (e : exn).

Definition BadRequest : string -> response := RespError 400.
Definition NotFound : response := RespError 404 "Verification failed.".

(** Python truthiness of [d.get(k)]: [None] and [''] are false. *)
Definition truthy (v : option string) : bool :=
  match v with
  | None => false
  | Some s => negb (String.eqb s "")
  end.

Definition seed_key (tag : string) : string := tag +:+ "_seed".

(** [POST /check-file] with the JSON field [tag]. *)
Definition handle_upload_check (file_tag : option string) (st : server)
  : server * response :=
  if negb (truthy file_tag) then (st, BadRequest "File tag missing.")
  else
    let file_tag := default "" file_tag in
    if decide (is_Some (file_db st !! file_tag)) then
      let (seed, st) := token_hex 16 st in
      let st := set_file_db (<[seed_key file_tag := seed]> (file_db st)) st in
      (st, RespExists seed)
    else (st, RespNew).

(** [os.path.join(SERVER_STORAGE_PATH, filename)]: an absolute second
    component replaces the first. *)
Definition path_join (dir name : string) : string :=
  match name with
  | String "/" _ => name
  | _ => dir +:+ name
  end.

(** What [file.save(filepath)] did; the operating system decides it, not
    the handler. [SaveRaised]: the call raised an [OSError] (missing
    directory, the path is a directory, no space ...); [names] are the path
    texts whose file it had already touched ([[]] when it could not even
    open the file) and [stored] what they now read. [Saved]: the call
    returned; [names] are the path texts other than [filepath] under which
    the written file is also seen (links, [./] and [//] spellings) and
    [stored] is what reading it now gives: the content for a regular file,
    nothing for a device such as [/dev/null]. A file that was saved can be
    opened for reading, and saving removes no file. *)
Inductive save_result : Type :=
| SaveRaised (names : list string) (stored : list byte)
| Saved (names : list string) (stored : list byte).

Definition write_all (names : list string) (stored : list byte)
  (d : gmap string (list byte)) : gmap string (list byte) :=
  foldr (fun name files => <[name := stored]> files) d names.

Definition set_disk (d : gmap string (list byte)) (st : server) : server :=
  Server (file_db st) d (entropy st) (drawn st).

(** [POST /upload-file] with an optional [file] part (name and content) and
    the form field [tag]; [save] is what [file.save] does when it is
    reached. *)
Definition upload_full_file (file : option (string * list byte)) (tag : option string)
  (save : save_result) (st : server) : server * response :=
  match file with
  | None => (st, BadRequest "No file part.")
  | Some (filename, content) =>
      if String.eqb filename "" || negb (truthy tag) then (st, BadRequest "Invalid request.")
      else
        let tag := default "" tag in
        let filepath := path_join SERVER_STORAGE_PATH filename in
        match save with
        | SaveRaised names stored =>
            (set_disk (write_all names stored (disk st)) st, RespRaised OSError)
        | Saved names stored =>
            let st := set_disk (write_all (filepath :: names) stored (disk st)) st in
            let st := set_file_db (<[tag := filepath]> (file_db st)) st in
            (st, RespUploaded filename)
        end
  end.

(** [POST /verify] with the JSON fields [tag] and [proof]. A missing tag
    makes [tag + '_seed'] raise. *)
Definition verify_ownership (tag user_proof : option string) (st : server)
  : server * response :=
  match tag with
  | None => (st, RespRaised TypeError)
  | Some tag =>
      let filepath := file_db st !! tag in
      let seed := file_db st !! seed_key tag in
      if negb (truthy filepath) || negb (truthy seed) then (st, NotFound)
      else
        match generate_server_proof (disk st) (default "" filepath) (default "" seed) with
        | Raise e => (st, RespRaised e)
        | Ok server_proof =>
            let st := set_file_db (delete (seed_key tag) (file_db st)) st in
            if decide (user_proof = server_proof) then (st, RespVerified)
            else (st, RespFailed)
        end
  end.

(** ** The server as a transition system *)

Inductive request : Type :=
| CheckTag (tag : option string)
| RegisterContent (file : option (string * list byte)) (tag : option string)
    (save : save_result)
| SubmitProof (tag proof : option string).

Definition handle (st : server) (r : request) : server * response :=
  match r with
  | CheckTag tag => handle_upload_check tag st
  | RegisterContent file tag save => upload_full_file file tag save st
  | SubmitProof tag proof => verify_ownership tag proof st
  end.

(** Serving a list of requests in order; the trace pairs each request with
    its response. *)
Fixpoint serve (st : server) (rs : list request) : server * list (request * response) :=
  match rs with
  | [] => (st, [])
  | r :: rest =>
      let (st1, resp) := handle st r in
      let (st2, trace) := serve st1 rest in
      (st2, (r, resp) :: trace)
  end.

(** The state at start-up: an empty [file_db]. *)
Definition boot (d : gmap string (list byte)) (rnd : nat -> byte) : server :=
  Server ∅ d rnd 0.

(** A tag is registered by a trace when some upload carrying it was accepted. *)
Definition registers (tag : string) (event : request * response) : bool :=
  match event with
  | (RegisterContent _ (Some t) _, RespUploaded _) => String.eqb t tag
  | _ => false
  end.

Definition registered (tag : string) (trace : list (request * response)) : bool :=
  existsb (registers tag) trace.

(** [key.endswith('_seed')]: the keys under which seeds are stored. *)
Fixpoint is_seed_key (key : string) : bool :=
  String.eqb key "_seed"
  || match key with
     | EmptyString => false
     | String _ rest => is_seed_key rest
     end.

Definition request_tag (r : request) : option string :=
  match r with
  | CheckTag tag | RegisterContent _ tag _ | SubmitProof tag _ => tag
  end.

(** A request whose tag, if any, does not end in [_seed]; every tag that
    [get_file_tag] computes is of this kind. *)
Definition plain_request (r : request) : bool :=
  match request_tag r with
  | Some tag => negb (is_seed_key tag)
  | None => true
  end.

(** What holds of [file_db] along runs of plain requests: a registration
    names a file that is on the disk, and a seed entry is non-empty and
    belongs to a registered tag. *)
Record store_ok (st : server) : Prop := {
  ok_content : forall k v,
    file_db st !! k = Some v -> is_seed_key k = false ->
    v <> ""%string /\ is_Some (disk st !! v);
  ok_pending : forall k v,
    file_db st !! k = Some v -> is_seed_key k = true ->
    v <> ""%string
    /\ exists t, k = seed_key t /\ is_seed_key t = false /\ is_Some (file_db st !! t)
}.

(** A lowercase hexadecimal digit. *)
Definition is_lower_hex (c : ascii) : bool :=
  existsb (Ascii.eqb c) (list_ascii_of_string "0123456789abcdef").

(** The pending challenge of a tag, as [verify_ownership] looks it up. *)
Definition pending (st : server) (tag : string) : option string :=
  file_db st !! seed_key tag.

(** ** The proof as the specification words it *)

Definition mask (seed : string) (i : Z) : list byte :=
  sha256 (encode seed ++ encode (str i)).

Definition block_hash (seed : string) (i : Z) (block : list byte) : list byte :=
  sha256 (block ++ mask seed i).

(** [acc = H(acc || h_i)] for the blocks numbered [i], [i+1], ... *)
Fixpoint chain (seed : string) (i : Z) (acc : list byte) (blocks : list (list byte))
  : list byte :=
  match blocks with
  | [] => acc
  | b :: rest => chain seed (i + 1) (sha256 (acc ++ block_hash seed i b)) rest
  end.

Definition chained_fold (seed : string) (b1 b2 : list byte) (rest : list (list byte))
  : list byte :=
  chain seed 3 (sha256 (block_hash seed 1 b1 ++ block_hash seed 2 b2)) rest.


(** The seed the next hit will issue, and the state it leaves. *)
Definition next_seed (st : server) : string :=
  hex (map (entropy st) (seq (drawn st) 16)).

Definition issued (tag : string) (st : server) : server :=
  Server (<[seed_key tag := next_seed st]> (file_db st))
         (disk st) (entropy st) (drawn st + 16).

(** What the segmenter guarantees of the blocks of a file [f]. *)
Record segmentation (f : list byte) (blocks : list (list byte)) : Prop := {
  seg_concat : concat blocks = f;
  seg_bounds : forall i b, blocks !! i = Some b ->
                 (1 <= length b <= BLOCK_SIZE)%nat;
  seg_full : forall i b, blocks !! i = Some b -> (S i < length blocks)%nat ->
               length b = BLOCK_SIZE
}.

(** Every run of the handler falls in one of four cases. *)
Inductive verify_case (tag proof : option string) (st : server)
  : server -> response -> Prop :=
| VerifyNoTag :
    tag = None -> verify_case tag proof st st (RespRaised TypeError)
| VerifyRejected t :
    tag = Some t ->
    truthy (file_db st !! t) = false \/ truthy (file_db st !! seed_key t) = false ->
    verify_case tag proof st st NotFound
| VerifyRaised t path seed e :
    tag = Some t ->
    file_db st !! t = Some path -> path <> ""%string ->
    file_db st !! seed_key t = Some seed -> seed <> ""%string ->
    generate_server_proof (disk st) path seed = Raise e ->
    verify_case tag proof st st (RespRaised e)
| VerifyChecked t path seed server_proof :
    tag = Some t ->
    file_db st !! t = Some path -> path <> ""%string ->
    file_db st !! seed_key t = Some seed -> seed <> ""%string ->
    generate_server_proof (disk st) path seed = Ok server_proof ->
    verify_case tag proof st
      (set_file_db (delete (seed_key t) (file_db st)) st)
      (if decide (proof = server_proof) then RespVerified else RespFailed).

(** Every run of the upload handler falls in one of three cases. *)
Inductive upload_case (file : option (string * list byte)) (tag : option string)
    (save : save_result) (st : server) : server -> response -> Prop :=
| UploadRefused msg :
    file = None \/ (exists content, file = Some (""%string, content))
    \/ truthy tag = false ->
    upload_case file tag save st st (BadRequest msg)
| UploadRaised name content t names stored :
    file = Some (name, content) -> name <> ""%string ->
    tag = Some t -> t <> ""%string ->
    save = SaveRaised names stored ->
    upload_case file tag save st
      (set_disk (write_all names stored (disk st)) st) (RespRaised OSError)
| UploadDone name content t names stored :
    file = Some (name, content) -> name <> ""%string ->
    tag = Some t -> t <> ""%string ->
    save = Saved names stored ->
    upload_case file tag save st
      (Server (<[t := path_join SERVER_STORAGE_PATH name]> (file_db st))
              (write_all (path_join SERVER_STORAGE_PATH name :: names) stored (disk st))
              (entropy st) (drawn st))
      (RespUploaded name).

(** ** Concrete data for the runs below *)

Definition two_block_content : list byte := repeat x61 4097.
Definition one_block_content : list byte := repeat x61 100.

Definition demo_disk : gmap string (list byte) :=
  <["server_storage/big.txt"%string := two_block_content]>
    {["server_storage/small.txt"%string := one_block_content]}.

Definition demo_entropy (n : nat) : byte := SHA256.byte_of_Z (Z.of_nat (7 * n + 3)).

(** Tag [ab] is registered for the small file and has a pending seed. *)
Definition demo_server : server :=
  Server (<["ab"%string := "server_storage/small.txt"%string]>
            {["ab_seed"%string := "00ff"%string]})
         demo_disk demo_entropy 0.

(** Tag [ab] is registered and no challenge is pending. *)
Definition idle_server : server :=
  Server {["ab"%string := "server_storage/small.txt"%string]} demo_disk demo_entropy 0.

(** Tag [ab] has a pending seed, but its registered file is not on the disk. *)
Definition orphan_server : server :=
  Server (<["ab"%string := "server_storage/gone.txt"%string]>
            {["ab_seed"%string := "00ff"%string]})
         ∅ demo_entropy 0.

(** Tag [cd] is registered for the two-block file and has a pending seed. *)
Definition big_server : server :=
  Server (<["cd"%string := "server_storage/big.txt"%string]>
            {["cd_seed"%string := "00"%string]})
         demo_disk demo_entropy 0.

Definition register_ab : list request :=
  [RegisterContent (Some ("small.txt"%string, one_block_content)) (Some "ab"%string)
     (Saved [] one_block_content)].

(** A registration and a hit for [ab], then a hit for the key [ab_seed]. *)
Definition seed_key_hit : list request :=
  [RegisterContent (Some ("x.bin"%string, one_block_content)) (Some "ab"%string)
     (Saved [] one_block_content);
   CheckTag (Some "ab"%string);
   CheckTag (Some "ab_seed"%string)].

(** A registration and a hit for [ab], then an upload under the tag
    [ab_seed]. *)
Definition seed_overwritten : list request :=
  [RegisterContent (Some ("big.txt"%string, two_block_content)) (Some "ab"%string)
     (Saved [] two_block_content);
   CheckTag (Some "ab"%string);
   RegisterContent (Some ("x.bin"%string, one_block_content)) (Some "ab_seed"%string)
     (Saved [] one_block_content)].

(** An upload into a directory that does not exist: the save raises at once. *)
Definition failed_upload : request :=
  RegisterContent (Some ("sub/x.txt"%string, one_block_content)) (Some "cd"%string)
    (SaveRaised [] []).

(** An upload whose file is also seen under a second spelling of its path. *)
Definition aliased_upload : request :=
  RegisterContent (Some ("./small.txt"%string, one_block_content)) (Some "ab"%string)
    (Saved ["server_storage/small.txt"%string] one_block_content).

Definition two_checks : list request :=
  register_ab ++ [CheckTag (Some "ab"%string); CheckTag (Some "ab"%string)].

Definition verify_then_check : list request :=
  [SubmitProof (Some "ab"%string) None; CheckTag (Some "ab"%string)].

(** ** Notions used by the further properties *)

(** The seeds a trace issued, in order. *)
Definition issued_seeds (trace : list (request * response)) : list string :=
  omap (fun event : request * response =>
          match event.2 with
          | RespExists seed => Some seed
          | _ => None
          end) trace.

(** The [k]-th run of 16 entropy bytes from position [start] on. *)
Definition entropy_window (rnd : nat -> byte) (start k : nat) : list byte :=
  map rnd (seq (start + 16 * k) 16).

(** The challenge of [tag] a trace leaves outstanding: the seed of the last
    hit for the tag, unless a later verification of the tag was answered
    Verified or Failed. *)
Definition outstanding_after (tag : string) (prev : option string)
    (event : request * response) : option string :=
  match event with
  | (CheckTag (Some t), RespExists seed) => if decide (t = tag) then Some seed else prev
  | (SubmitProof (Some t) _, RespVerified)
  | (SubmitProof (Some t) _, RespFailed) => if decide (t = tag) then None else prev
  | _ => prev
  end.

Definition outstanding (tag : string) (trace : list (request * response)) : option string :=
  fold_left (outstanding_after tag) trace None.

(** The proof the server expects for a seed and the blocks of the stored
    file, in the words of the specification: the chained fold of at least two
    blocks, and no proof at all below two blocks. *)
Definition expected_proof (seed : string) (blocks : list (list byte)) : option string :=
  match blocks with
  | b1 :: b2 :: rest => Some (hex (chained_fold seed b1 b2 rest))
  | _ => None
  end.

(** Reading hexadecimal text back, two digits per byte. *)
Definition unhex_digit (c : ascii) : N :=
  match String.index 0 (String c EmptyString) "0123456789abcdef" with
  | Some n => N.of_nat n
  | None => 0%N
  end.

Fixpoint unhex (s : string) : list byte :=
  match s with
  | String hi (String lo rest) =>
      SHA256.byte_of_Z (Z.of_N (16 * unhex_digit hi + unhex_digit lo)) :: unhex rest
  | _ => []
  end.

(** Text of 64 lowercase hexadecimal digits: a printed SHA-256 digest. *)
Definition is_digest_text (s : string) : Prop :=
  String.length s = 64%nat
  /\ Forall (fun c => is_lower_hex c = true) (list_ascii_of_string s).

(** * Properties *)

(** ** Test vectors *)

Example K_first : nth 0 SHA256.K 0 = 0x428a2f98.
Proof. reflexivity. Qed.

Example K_last : nth 63 SHA256.K 0 = 0xc67178f2.
Proof. reflexivity. Qed.

Example H0_first : nth 0 SHA256.H0 0 = 0x6a09e667.
Proof. reflexivity. Qed.

Example sha256_abc :
  hex (SHA256.sha256 (list_byte_of_string "abc"))
  = "ba7816bf8f01cfea414140de5dae2223b00361a396177a9cb410ff61f20015ad"%string.
Proof. vm_compute. reflexivity. Qed.

Example sha256_empty :
  hex (SHA256.sha256 [])
  = "e3b0c44298fc1c149afbf4c8996fb92427ae41e4649b934ca495991b7852b855"%string.
Proof. vm_compute. reflexivity. Qed.

Example blocks_5000 :
  map length (read_blocks (repeat x00 5000)) = [4096; 904]%nat.
Proof. vm_compute. reflexivity. Qed.

Example str_ex : str 12 = "12"%string /\ str 0 = "0"%string /\ str 4096 = "4096"%string.
Proof. repeat split. Qed.

(** A digest is 32 bytes long. *)
Lemma be_bytes_length (width : nat) (z : Z) : length (SHA256.be_bytes width z) = width.
Proof. induction width as [|w IH]; cbn [SHA256.be_bytes length]; [done | by rewrite IH]. Qed.

Lemma compress_length (h : list Z) (chunk : list byte) :
  length h = 8%nat -> length (SHA256.compress h chunk) = 8%nat.
Proof.
  intros Hh. unfold SHA256.compress.
  rewrite length_map, length_combine, Hh. reflexivity.
Qed.

Lemma sha256_length (msg : list byte) : length (sha256 msg) = 32%nat.
Proof.
  unfold sha256, SHA256.sha256.
  set (cs := SHA256.chunks _ _).
  assert (forall h, length h = 8%nat -> length (fold_left SHA256.compress cs h) = 8%nat)
    as Hfold.
  { induction cs as [|c cs IH]; intros h Hh; [done|].
    cbn [fold_left]. apply IH. by apply compress_length. }
  specialize (Hfold SHA256.H0 eq_refl).
  destruct (fold_left SHA256.compress cs SHA256.H0)
    as [|a [|b [|c [|d [|e [|f [|g [|h [|]]]]]]]]]; try done.
Qed.

(** ** Basic facts about the result monad and the loops *)

Lemma bind_Ok {A B} (f : A -> result B) (a : A) : (Ok a ≫= f) = f a.
Proof. reflexivity. Qed.

Lemma index_lookup {A} (l : list A) (i : nat) (a : A) :
  l !! i = Some a -> index l i = Ok a.
Proof. unfold index. by intros ->. Qed.

Section ProofEngine.

Context (seed : string).

Lemma prg_mask (i : Z) : prg seed i = mask seed i.
Proof. reflexivity. Qed.

(** The loop over the blocks that follow [done_], started on accumulator
    [acc], is the chain of the specification from index [length done_ + 1]. *)
Lemma loop_chain (todo done_ : list (list byte)) (acc : list byte) :
  for_each (seq (length done_) (length todo))
    (fun i resp =>
       block ← index (done_ ++ todo) i;
       let block_hash := sha256 (block ++ prg seed (Z.of_nat i + 1)) in
       Ok (sha256 (resp ++ block_hash))) acc
  = Ok (chain seed (Z.of_nat (length done_) + 1) acc todo).
Proof.
  revert done_ acc. induction todo as [|b todo IH]; intros done_ acc; [done|].
  cbn [length seq for_each chain].
  rewrite (index_lookup _ _ b); [|by rewrite lookup_app_r, Nat.sub_diag].
  rewrite bind_Ok. cbn zeta.
  specialize (IH (done_ ++ [b])). rewrite length_app, <- app_assoc in IH.
  cbn [length app] in IH. rewrite Nat.add_1_r in IH. rewrite bind_Ok, IH.
  rewrite prg_mask. unfold block_hash. do 3 f_equal. lia.
Qed.

(** Both engines, on [b1 :: b2 :: rest]: pass the guard, read the first two
    blocks, then run the loop on the rest. *)
Ltac run_engine b1 b2 rest :=
  unfold range; cbn [length Nat.ltb Nat.leb];
  rewrite (index_lookup _ 0%nat b1), (index_lookup _ 1%nat b2) by done;
  rewrite !bind_Ok; cbn zeta;
  replace (S (S (length rest)) - 2)%nat with (length rest) by lia;
  rewrite (loop_chain rest [b1; b2]); by rewrite !prg_mask.

Lemma user_resp_gen_chain (b1 b2 : list byte) (rest : list (list byte)) :
  user_resp_gen (b1 :: b2 :: rest) seed = Ok (hex (chained_fold seed b1 b2 rest)).
Proof. unfold user_resp_gen. run_engine b1 b2 rest. Qed.

Lemma server_resp_gen_chain (b1 b2 : list byte) (rest : list (list byte)) :
  server_resp_gen (b1 :: b2 :: rest) seed = Ok (Some (hex (chained_fold seed b1 b2 rest))).
Proof. unfold server_resp_gen. run_engine b1 b2 rest. Qed.

End ProofEngine.

Lemma at_least_two {A} (l : list A) :
  (2 <= length l)%nat -> exists a b rest, l = a :: b :: rest.
Proof. destruct l as [|a [|b rest]]; cbn; [lia | lia | eauto]. Qed.

(** C1: on a file whose blocks are [b1, b2, rest...], the claimant's proof is
    the hex text of the chained fold [H(H(b1 || mask 1) || H(b2 || mask 2))]
    extended by [acc = H(acc || H(b_i || mask i))] for i = 3, 4, ... in
    order, where [mask i = SHA-256(seed bytes || decimal text of i)]; the
    same holds of the function body on any list of at least two blocks. *)
Theorem generate_user_proof_chained_fold
  (seed : string) (b1 b2 : list byte) (rest : list (list byte)) :
  user_resp_gen (b1 :: b2 :: rest) seed = Ok (hex (chained_fold seed b1 b2 rest))
  /\ forall d filepath,
       get_file_blocks d filepath = Ok (b1 :: b2 :: rest) ->
       generate_user_proof d filepath seed = Ok (hex (chained_fold seed b1 b2 rest)).
Proof.
  split; [apply user_resp_gen_chain|].
  intros d filepath Hblocks. unfold generate_user_proof. rewrite Hblocks.
  apply user_resp_gen_chain.
Qed.

(** ** The block segmenter *)

Lemma BLOCK_SIZE_pos : (0 < BLOCK_SIZE)%nat.
Proof. unfold BLOCK_SIZE. lia. Qed.

Lemma BLOCK_SIZE_val : BLOCK_SIZE = 4096%nat.
Proof. reflexivity. Qed.

Local Opaque BLOCK_SIZE.

Lemma read_blocks_step (f : list byte) :
  read_blocks f =
    match take BLOCK_SIZE f with
    | [] => []
    | block => block :: read_blocks (drop BLOCK_SIZE f)
    end.
Proof.
  funelim (read_blocks f);
    match goal with H : take _ _ = _ |- _ => by rewrite H end.
Qed.

Lemma read_blocks_nil : read_blocks [] = [].
Proof. by rewrite read_blocks_step, take_nil. Qed.

Lemma read_blocks_cons (b : byte) (f : list byte) :
  read_blocks (b :: f)
  = take BLOCK_SIZE (b :: f) :: read_blocks (drop BLOCK_SIZE (b :: f)).
Proof.
  rewrite read_blocks_step. pose proof BLOCK_SIZE_pos as Hpos.
  destruct BLOCK_SIZE; [lia | done].
Qed.

Lemma read_blocks_empty_iff (f : list byte) : read_blocks f = [] <-> f = [].
Proof.
  split; [|intros ->; apply read_blocks_nil].
  destruct f; [done | by rewrite read_blocks_cons].
Qed.

Lemma read_blocks_segmentation (f : list byte) : segmentation f (read_blocks f).
Proof.
  remember (length f) as n eqn:Hn. revert f Hn.
  induction n as [n IH] using lt_wf_ind. intros f ->.
  pose proof BLOCK_SIZE_pos as Hpos.
  destruct f as [|b f].
  { rewrite read_blocks_nil. split; [done | intros i b'; by rewrite lookup_nil ..]. }
  rewrite read_blocks_cons.
  set (rest := drop BLOCK_SIZE (b :: f)).
  assert (length rest < length (b :: f))%nat as Hlt.
  { subst rest. rewrite length_drop. cbn [length]. lia. }
  destruct (IH _ Hlt rest eq_refl) as [Hc Hb Hf].
  split.
  - cbn [concat]. rewrite Hc. apply take_drop.
  - intros i blk Hi. rewrite lookup_cons in Hi. destruct i as [|i].
    + injection Hi as <-. rewrite length_take. cbn [length]. lia.
    + by apply (Hb i).
  - intros i blk Hi Hlen. rewrite lookup_cons in Hi. cbn [length] in Hlen.
    destruct i as [|i].
    + injection Hi as <-. rewrite length_take.
      destruct (read_blocks rest) as [|r rs] eqn:Hrest; [cbn [length] in Hlen; lia|].
      assert (rest <> []) as Hne.
      { intros Hr. by rewrite Hr, read_blocks_nil in Hrest. }
      assert (0 < length rest)%nat as Hrl by (destruct rest; [done | cbn [length]; lia]).
      subst rest. rewrite length_drop in Hrl. lia.
    + apply (Hf i); [exact Hi | lia].
Qed.

(** C8: the segmenter returns, for every readable file, blocks that are each
    non-empty and at most 4096 bytes long, all of exactly 4096 bytes except
    possibly the last, and whose concatenation in order is the file. *)
Theorem get_file_blocks_segments
  (d : gmap string (list byte)) (filepath : string) (content : list byte) :
  d !! filepath = Some content ->
  exists blocks,
    get_file_blocks d filepath = Ok blocks
    /\ concat blocks = content
    /\ (forall i b, blocks !! i = Some b -> (1 <= length b <= 4096)%nat)
    /\ (forall i b, blocks !! i = Some b -> (S i < length blocks)%nat ->
          length b = 4096%nat).
Proof.
  intros Hfile. exists (read_blocks content).
  destruct (read_blocks_segmentation content) as [Hc Hb Hf].
  rewrite BLOCK_SIZE_val in Hb, Hf.
  unfold get_file_blocks, open. rewrite Hfile. auto.
Qed.

Lemma update_chunks_app (h : hasher) (f : list byte) : update_chunks h f = h ++ f.
Proof.
  funelim (update_chunks h f).
  - match goal with H : take _ ?f = [] |- _ =>
      destruct f; [by rewrite app_nil_r|] end.
    pose proof BLOCK_SIZE_pos. destruct BLOCK_SIZE; [lia | done].
  - match goal with IH : update_chunks _ _ = _ ++ _ |- _ => rewrite IH end.
    match goal with H : take _ _ = _ |- _ => rewrite <- H end.
    unfold update. by rewrite <- app_assoc, take_drop.
Qed.

(** The tag of a file is the hex SHA-256 digest of its content. *)
Lemma get_file_tag_digest d filepath content :
  d !! filepath = Some content ->
  get_file_tag d filepath = Ok (hex (sha256 content)).
Proof.
  intros Hfile. unfold get_file_tag, open. rewrite Hfile.
  cbn [mbind result_bind]. by rewrite update_chunks_app.
Qed.

(** ** The two proof engines *)

Lemma generate_user_proof_blocks d filepath seed blocks :
  get_file_blocks d filepath = Ok blocks ->
  generate_user_proof d filepath seed = user_resp_gen blocks seed.
Proof. unfold generate_user_proof. by intros ->. Qed.

Lemma generate_server_proof_blocks d filepath seed blocks :
  get_file_blocks d filepath = Ok blocks ->
  generate_server_proof d filepath seed = server_resp_gen blocks seed.
Proof. unfold generate_server_proof. by intros ->. Qed.

Lemma small_resp_gen (blocks : list (list byte)) (seed : string) :
  (length blocks < 2)%nat ->
  user_resp_gen blocks seed = Raise (ValueError too_small_message)
  /\ server_resp_gen blocks seed = Ok None.
Proof.
  intros Hlen. unfold user_resp_gen, server_resp_gen.
  by destruct (Nat.ltb_spec (length blocks) 2); [|lia].
Qed.

Lemma resp_gen_agree (blocks : list (list byte)) (seed : string) :
  (2 <= length blocks)%nat ->
  exists proof,
    user_resp_gen blocks seed = Ok proof
    /\ server_resp_gen blocks seed = Ok (Some proof).
Proof.
  intros Hlen. destruct (at_least_two blocks Hlen) as (b1 & b2 & rest & ->).
  exists (hex (chained_fold seed b1 b2 rest)).
  by rewrite user_resp_gen_chain, server_resp_gen_chain.
Qed.

(** C5: on a file of at least two blocks the claimant's function and the
    server's function return the same hex digest. *)
Theorem user_and_server_proofs_agree
  (d : gmap string (list byte)) (filepath seed : string) (blocks : list (list byte)) :
  get_file_blocks d filepath = Ok blocks ->
  (2 <= length blocks)%nat ->
  exists proof,
    generate_user_proof d filepath seed = Ok proof
    /\ generate_server_proof d filepath seed = Ok (Some proof).
Proof.
  intros Hblocks Hlen.
  rewrite (generate_user_proof_blocks _ _ _ _ Hblocks).
  rewrite (generate_server_proof_blocks _ _ _ _ Hblocks).
  by apply resp_gen_agree.
Qed.

(** C4 (amended): with fewer than two blocks the claimant's function raises
    the too-small [ValueError] and the server's function returns [None]
    without raising; with exactly two blocks both return a proof. *)
Theorem small_content_outcomes
  (d : gmap string (list byte)) (filepath seed : string) (blocks : list (list byte)) :
  get_file_blocks d filepath = Ok blocks ->
  ((length blocks < 2)%nat ->
     generate_user_proof d filepath seed = Raise (ValueError too_small_message)
     /\ generate_server_proof d filepath seed = Ok None)
  /\ (length blocks = 2%nat ->
        exists proof,
          generate_user_proof d filepath seed = Ok proof
          /\ generate_server_proof d filepath seed = Ok (Some proof)).
Proof.
  intros Hblocks. split.
  - intros Hlen.
    rewrite (generate_user_proof_blocks _ _ _ _ Hblocks).
    rewrite (generate_server_proof_blocks _ _ _ _ Hblocks).
    by apply small_resp_gen.
  - intros Hlen.
    rewrite (generate_user_proof_blocks _ _ _ _ Hblocks).
    rewrite (generate_server_proof_blocks _ _ _ _ Hblocks).
    apply resp_gen_agree. lia.
Qed.

(** ** The verifier *)

Lemma truthy_true (v : option string) :
  truthy v = true <-> exists s, v = Some s /\ s <> ""%string.
Proof.
  destruct v as [s|]; cbn; [|split; [done | by intros (? & ? & ?)]].
  rewrite negb_true_iff. destruct (String.eqb_spec s ""); split.
  - done.
  - intros (? & [= <-] & ?). done.
  - eauto.
  - done.
Qed.

Lemma string_length_app (s1 s2 : string) :
  String.length (s1 +:+ s2) = (String.length s1 + String.length s2)%nat.
Proof. induction s1 as [|c s1 IH]; [done|]. simpl. by f_equal. Qed.

Lemma seed_key_neq (tag : string) : seed_key tag <> tag.
Proof.
  unfold seed_key. intros Heq. apply (f_equal String.length) in Heq.
  rewrite string_length_app in Heq. cbn in Heq. lia.
Qed.

(** The rejected branch: the state is returned as it was received. *)
Lemma verify_rejected (tag : string) (proof : option string) (st : server) :
  truthy (file_db st !! tag) = false \/ truthy (file_db st !! seed_key tag) = false ->
  verify_ownership (Some tag) proof st = (st, NotFound).
Proof.
  intros H. unfold verify_ownership.
  by destruct H as [-> | ->]; rewrite ?orb_true_r.
Qed.

(** The checked branch: the seed entry is deleted and the proofs compared. *)
Lemma verify_checked (tag : string) (proof : option string) (st : server)
    (path seed : string) (server_proof : option string) :
  file_db st !! tag = Some path -> path <> ""%string ->
  file_db st !! seed_key tag = Some seed -> seed <> ""%string ->
  generate_server_proof (disk st) path seed = Ok server_proof ->
  verify_ownership (Some tag) proof st
  = (set_file_db (delete (seed_key tag) (file_db st)) st,
     if decide (proof = server_proof) then RespVerified else RespFailed).
Proof.
  intros Hpath Hp Hseed Hs Hgen. unfold verify_ownership.
  rewrite Hpath, Hseed. cbn [truthy default].
  destruct (String.eqb_spec path ""); [done|].
  destruct (String.eqb_spec seed ""); [done|].
  cbn [negb orb]. unfold id. rewrite Hgen. by case_decide.
Qed.

Lemma verify_cases (tag proof : option string) (st : server) :
  verify_case tag proof st
    (verify_ownership tag proof st).1 (verify_ownership tag proof st).2.
Proof.
  destruct tag as [t|]; [|by constructor].
  destruct (truthy (file_db st !! t)) eqn:Hp;
    [|rewrite verify_rejected by auto; econstructor; eauto].
  destruct (truthy (file_db st !! seed_key t)) eqn:Hs;
    [|rewrite verify_rejected by auto; econstructor; eauto].
  apply truthy_true in Hp as (path & Hpath & Hpne).
  apply truthy_true in Hs as (seed & Hseed & Hsne).
  destruct (generate_server_proof (disk st) path seed) as [sp|e] eqn:Hgen.
  - rewrite (verify_checked t proof st path seed sp) by done.
    by eapply VerifyChecked.
  - replace (verify_ownership (Some t) proof st) with (st, RespRaised e).
    + by eapply VerifyRaised.
    + unfold verify_ownership. rewrite Hpath, Hseed. cbn [truthy default].
      destruct (String.eqb_spec path ""); [done|].
      destruct (String.eqb_spec seed ""); [done|].
      cbn [negb orb]. unfold id. by rewrite Hgen.
Qed.

Lemma server_resp_gen_total (blocks : list (list byte)) (seed : string) :
  exists server_proof, server_resp_gen blocks seed = Ok server_proof.
Proof.
  destruct (Nat.lt_ge_cases (length blocks) 2) as [Hlt|Hge].
  - exists None. by apply small_resp_gen.
  - destruct (resp_gen_agree blocks seed Hge) as (p & _ & Hp). eauto.
Qed.

Lemma generate_server_proof_total d filepath seed content :
  d !! filepath = Some content ->
  exists server_proof, generate_server_proof d filepath seed = Ok server_proof.
Proof.
  intros Hfile. unfold generate_server_proof, get_file_blocks, open.
  rewrite Hfile. apply server_resp_gen_total.
Qed.

Lemma verify_run (tag proof : option string) (st st' : server) (r : response) :
  verify_ownership tag proof st = (st', r) -> verify_case tag proof st st' r.
Proof. intros H. pose proof (verify_cases tag proof st) as Hc. by rewrite H in Hc. Qed.

(** C10: a NotFound answer comes only from a missing stored path or a missing
    pending seed, and it returns the state exactly as received; in that case
    the answer does not depend on the files either, as nothing is read. *)
Theorem verify_not_found_is_atomic (tag proof : option string) (st : server) :
  (forall st',
     verify_ownership tag proof st = (st', NotFound) ->
     st' = st
     /\ exists t, tag = Some t
          /\ (truthy (file_db st !! t) = false \/ truthy (pending st t) = false))
  /\ (forall t,
        tag = Some t ->
        truthy (file_db st !! t) = false \/ truthy (pending st t) = false ->
        verify_ownership tag proof st = (st, NotFound)
        /\ forall d',
             verify_ownership tag proof (Server (file_db st) d' (entropy st) (drawn st))
             = (Server (file_db st) d' (entropy st) (drawn st), NotFound)).
Proof.
  split.
  - intros st' Hrun. apply verify_run in Hrun.
    inversion Hrun as [ | t Ht Hmiss | | t path seed sp Ht _ _ _ _ _ Hst Hresp ]; subst.
    + split; [done|]. by exists t.
    + by case_decide.
  - intros t -> Hmiss. split; [by apply verify_rejected|].
    intros d'. by apply verify_rejected.
Qed.

(** ** Challenge issuance *)

Lemma check_missing_tag (tag : option string) (st : server) :
  truthy tag = false ->
  handle_upload_check tag st = (st, BadRequest "File tag missing.").
Proof. unfold handle_upload_check. by intros ->. Qed.

Lemma check_hit (tag : string) (st : server) :
  tag <> ""%string -> is_Some (file_db st !! tag) ->
  handle_upload_check (Some tag) st = (issued tag st, RespExists (next_seed st)).
Proof.
  intros Hne Hin. unfold handle_upload_check.
  assert (truthy (Some tag) = true) as -> by (apply truthy_true; eauto).
  cbn [negb default from_option]. unfold id. by rewrite decide_True.
Qed.

Lemma check_miss (tag : string) (st : server) :
  tag <> ""%string -> file_db st !! tag = None ->
  handle_upload_check (Some tag) st = (st, RespNew).
Proof.
  intros Hne Hin. unfold handle_upload_check.
  assert (truthy (Some tag) = true) as -> by (apply truthy_true; eauto).
  cbn [negb default from_option]. unfold id.
  rewrite decide_False; [done|]. rewrite Hin. by intros [? ?].
Qed.

Lemma check_exists_inv (tag : option string) (st st' : server) (seed : string) :
  handle_upload_check tag st = (st', RespExists seed) ->
  exists t, tag = Some t /\ t <> ""%string /\ is_Some (file_db st !! t)
            /\ seed = next_seed st /\ st' = issued t st.
Proof.
  destruct (truthy tag) eqn:Htag; [|by rewrite check_missing_tag].
  apply truthy_true in Htag as (t & -> & Hne).
  destruct (file_db st !! t) as [path|] eqn:Hin.
  - rewrite check_hit by (by rewrite ?Hin). intros [= <- <-].
    exists t. by rewrite Hin.
  - by rewrite check_miss.
Qed.

(** ** Hexadecimal text *)

Lemma hex_length (bs : list byte) : String.length (hex bs) = (2 * length bs)%nat.
Proof. induction bs as [|b bs IH]; cbn [hex String.length length]; lia. Qed.

Lemma hex_byte_digits (b : byte) :
  is_lower_hex (hex_digit (Byte.to_N b / 16)) = true
  /\ is_lower_hex (hex_digit (Byte.to_N b mod 16)) = true.
Proof. destruct b; vm_compute; done. Qed.

Lemma hex_lower (bs : list byte) :
  Forall (fun c => is_lower_hex c = true) (list_ascii_of_string (hex bs)).
Proof.
  induction bs as [|b bs IH]; [constructor|].
  destruct (hex_byte_digits b). cbn [hex list_ascii_of_string]. by repeat constructor.
Qed.

Lemma lower_hex_is_ascii (c : ascii) :
  is_lower_hex c = true -> (Byte.to_N (byte_of_ascii c) < 128)%N.
Proof.
  unfold is_lower_hex. rewrite existsb_exists. intros (x & Hin & Heq).
  apply Ascii.eqb_eq in Heq as ->. cbn in Hin.
  repeat (destruct Hin as [<- | Hin]; [by vm_compute|]). done.
Qed.

Lemma encode_chars (s : string) :
  encode s = map byte_of_ascii (list_ascii_of_string s).
Proof. reflexivity. Qed.

(** C9: a seed issued on a hit is the hex text of the next 16 bytes of the
    entropy source, which are thereby used up: 32 characters, each a
    lowercase hexadecimal digit; the
    mask generator hashes the bytes of those characters, all below 128,
    followed by the decimal text of the index. *)
Theorem issued_seed_format
  (tag : option string) (st st' : server) (seed : string) :
  handle_upload_check tag st = (st', RespExists seed) ->
  (exists bs, length bs = 16%nat /\ seed = hex bs
              /\ bs = map (entropy st) (seq (drawn st) 16)
              /\ drawn st' = (drawn st + 16)%nat)
  /\ String.length seed = 32%nat
  /\ Forall (fun c => is_lower_hex c = true) (list_ascii_of_string seed)
  /\ Forall (fun b => (Byte.to_N b < 128)%N) (encode seed)
  /\ forall i, prg seed i
               = sha256 (map byte_of_ascii (list_ascii_of_string seed) ++ encode (str i)).
Proof.
  intros Hcheck. apply check_exists_inv in Hcheck as (t & _ & _ & _ & -> & ->).
  unfold next_seed. cbn [issued drawn]. set (bs := map (entropy st) (seq (drawn st) 16)).
  assert (length bs = 16%nat) as Hlen by (subst bs; by rewrite length_map, length_seq).
  split; [by exists bs|]. split; [rewrite hex_length; lia|].
  split; [apply hex_lower|]. split; [|done].
  rewrite encode_chars, Forall_map.
  eapply Forall_impl; [apply hex_lower|]. apply lower_hex_is_ascii.
Qed.

(** ** Registration and the dedup check along a run *)

Lemma upload_cases (file : option (string * list byte)) (tag : option string)
    (save : save_result) (st : server) :
  upload_case file tag save st
    (upload_full_file file tag save st).1 (upload_full_file file tag save st).2.
Proof.
  destruct file as [[name content]|]; [|constructor; by left].
  unfold upload_full_file.
  destruct (String.eqb_spec name "") as [->|Hname].
  { constructor. right. left. by eexists. }
  destruct (truthy tag) eqn:Htag; [|constructor; by repeat right].
  apply truthy_true in Htag as (t & -> & Hne).
  cbn [negb orb default from_option]. unfold id.
  destruct save as [names stored | names stored].
  - exact (UploadRaised _ _ _ st name content t names stored
             eq_refl Hname eq_refl Hne eq_refl).
  - exact (UploadDone _ _ _ st name content t names stored
             eq_refl Hname eq_refl Hne eq_refl).
Qed.

Lemma upload_run (file : option (string * list byte)) (tag : option string)
    (save : save_result) (st st' : server) (resp : response) :
  upload_full_file file tag save st = (st', resp) -> upload_case file tag save st st' resp.
Proof. intros H. pose proof (upload_cases file tag save st) as Hc. by rewrite H in Hc. Qed.

Lemma upload_done_inv (file : option (string * list byte)) (tag : option string)
    (save : save_result) (st st' : server) (name : string) :
  upload_full_file file tag save st = (st', RespUploaded name) ->
  exists content t names stored,
    file = Some (name, content) /\ tag = Some t /\ save = Saved names stored
    /\ name <> ""%string /\ t <> ""%string
    /\ st' = Server (<[t := path_join SERVER_STORAGE_PATH name]> (file_db st))
               (write_all (path_join SERVER_STORAGE_PATH name :: names) stored (disk st))
               (entropy st) (drawn st).
Proof.
  intros Hrun. apply upload_run in Hrun.
  remember (RespUploaded name) as resp eqn:Hresp.
  destruct Hrun as [msg _ | name' content t names stored _ _ _ _ _
                   | name' content t names stored -> Hname -> Ht ->];
    [discriminate Hresp .. |].
  injection Hresp as ->. by exists content, t, names, stored.
Qed.

Lemma write_all_lookup_in (names : list string) (stored : list byte)
    (d : gmap string (list byte)) (p : string) :
  p ∈ names -> write_all names stored d !! p = Some stored.
Proof.
  induction names as [|n names IH]; [by intros ?%not_elem_of_nil|].
  cbn [write_all foldr]. fold (write_all names stored d).
  destruct (decide (n = p)) as [->|Hne]; [by rewrite lookup_insert_eq|].
  rewrite lookup_insert_ne by done. intros [?|?]%elem_of_cons; [congruence | auto].
Qed.

Lemma write_all_lookup_notin (names : list string) (stored : list byte)
    (d : gmap string (list byte)) (p : string) :
  p ∉ names -> write_all names stored d !! p = d !! p.
Proof.
  induction names as [|n names IH]; [done|].
  cbn [write_all foldr]. fold (write_all names stored d).
  intros Hnot. apply not_elem_of_cons in Hnot as [Hne Hnot].
  rewrite lookup_insert_ne by done. auto.
Qed.

Lemma write_all_keeps (names : list string) (stored : list byte)
    (d : gmap string (list byte)) (p : string) :
  is_Some (d !! p) -> is_Some (write_all names stored d !! p).
Proof.
  intros Hin. destruct (decide (p ∈ names)) as [Hp|Hp].
  - rewrite write_all_lookup_in by done. by eexists.
  - by rewrite write_all_lookup_notin.
Qed.

(** A key that is no tag's seed key is present after a request exactly when
    it was present before or the request registered it. *)
Lemma handle_content_keys (t : string) (st st' : server) (r : request) (resp : response) :
  (forall p, t <> seed_key p) ->
  handle st r = (st', resp) ->
  file_db st' !! t = None <-> (file_db st !! t = None /\ registers t (r, resp) = false).
Proof.
  intros Hgood Hrun. destruct r as [tag | file tag save | tag proof]; cbn [handle] in Hrun.
  - cbn [registers]. destruct (truthy tag) eqn:Htag.
    + apply truthy_true in Htag as (tg & -> & Hne).
      destruct (file_db st !! tg) as [path|] eqn:Hin.
      * rewrite check_hit in Hrun by (by rewrite ?Hin). injection Hrun as <- <-.
        unfold issued. cbn [file_db]. rewrite lookup_insert_ne by (intros Heq; by apply (Hgood tg)).
        tauto.
      * rewrite check_miss in Hrun by done. injection Hrun as <- <-. tauto.
    + rewrite check_missing_tag in Hrun by done. injection Hrun as <- <-. tauto.
  - apply upload_run in Hrun.
    destruct Hrun as [msg _ | name content tg names stored _ _ -> _ _
                     | name content tg names stored _ _ -> _ _].
    + cbn [registers]. destruct tag; tauto.
    + cbn [registers set_disk file_db]. tauto.
    + cbn [registers file_db].
      destruct (String.eqb_spec tg t) as [->|Hneq].
      * rewrite lookup_insert_eq. split; [done | by intros [_ ?]].
      * rewrite lookup_insert_ne by done. tauto.
  - cbn [registers]. apply verify_run in Hrun.
    destruct Hrun; [tauto .. |]. cbn [file_db set_file_db].
    rewrite lookup_delete_ne by (intros Heq; by eapply Hgood). tauto.
Qed.

Lemma serve_content_keys (t : string) (rs : list request) (st st' : server)
    (trace : list (request * response)) :
  (forall p, t <> seed_key p) ->
  serve st rs = (st', trace) ->
  file_db st' !! t = None <-> (file_db st !! t = None /\ registered t trace = false).
Proof.
  intros Hgood. revert st st' trace.
  induction rs as [|r rs IH]; intros st st' trace Hrun; cbn [serve] in Hrun.
  - injection Hrun as <- <-. cbn. tauto.
  - destruct (handle st r) as [st1 resp] eqn:Hstep.
    destruct (serve st1 rs) as [st2 trace'] eqn:Hrest.
    injection Hrun as <- <-.
    rewrite (IH _ _ _ Hrest), (handle_content_keys t _ _ _ _ Hgood Hstep).
    unfold registered. cbn [existsb]. rewrite orb_false_iff. tauto.
Qed.

Lemma is_seed_key_seed_key (p : string) : is_seed_key (seed_key p) = true.
Proof.
  unfold seed_key. induction p as [|c p IH]; [done|].
  change (String c p +:+ "_seed") with (String c (p +:+ "_seed")).
  cbn [is_seed_key]. rewrite IH. apply orb_true_r.
Qed.

Lemma not_seed_key (t : string) : is_seed_key t = false -> forall p, t <> seed_key p.
Proof. intros Hno p ->. by rewrite is_seed_key_seed_key in Hno. Qed.

(** C7 (amended): an absent or empty tag is answered with a validation error
    and no change. For a non-empty tag that does not end in [_seed],
    after any run from start-up, the answer is New exactly when no accepted
    upload registered the tag; otherwise the answer is Exists with the hex
    text of the next 16 entropy bytes, stored as the tag's pending seed. *)
Theorem check_tag_new_iff_unregistered :
  (forall tag st, truthy tag = false ->
     handle_upload_check tag st = (st, BadRequest "File tag missing."))
  /\ forall d rnd rs tag st trace,
       tag <> ""%string -> is_seed_key tag = false ->
       serve (boot d rnd) rs = (st, trace) ->
       ((handle_upload_check (Some tag) st).2 = RespNew <-> registered tag trace = false)
       /\ (registered tag trace = false ->
             handle_upload_check (Some tag) st = (st, RespNew))
       /\ (registered tag trace = true ->
             handle_upload_check (Some tag) st
             = (issued tag st, RespExists (next_seed st))
             /\ pending (issued tag st) tag = Some (next_seed st)).
Proof.
  split; [apply check_missing_tag|].
  intros d rnd rs tag st trace Hne Hgood Hrun.
  pose proof (not_seed_key tag Hgood) as Hkey.
  pose proof (serve_content_keys tag rs _ _ _ Hkey Hrun) as Hkeys.
  cbn [boot file_db] in Hkeys. rewrite lookup_empty in Hkeys.
  assert (pending (issued tag st) tag = Some (next_seed st)) as Hpend.
  { unfold pending, issued. cbn [file_db]. apply lookup_insert_eq. }
  destruct (registered tag trace) eqn:Hreg.
  - assert (is_Some (file_db st !! tag)) as Hin.
    { destruct (file_db st !! tag); [by eexists|]. by destruct (proj1 Hkeys eq_refl). }
    rewrite (check_hit tag st Hne Hin). cbn [snd]. repeat split; done.
  - assert (file_db st !! tag = None) as Hin by (by apply Hkeys).
    rewrite (check_miss tag st Hne Hin). cbn [snd]. repeat split; done.
Qed.

(** ** The store along runs of plain requests *)

Lemma seed_key_inj (t t' : string) : seed_key t = seed_key t' -> t = t'.
Proof.
  unfold seed_key. revert t'. induction t as [|c t IH]; intros [|c' t'] Heq.
  - done.
  - apply (f_equal String.length) in Heq. simpl in Heq.
    rewrite string_length_app in Heq. simpl in Heq. lia.
  - apply (f_equal String.length) in Heq. simpl in Heq.
    rewrite string_length_app in Heq. simpl in Heq. lia.
  - injection Heq as -> Heq. f_equal. by apply IH.
Qed.

Lemma next_seed_nonempty (st : server) : next_seed st <> ""%string.
Proof.
  intros Heq. apply (f_equal String.length) in Heq. unfold next_seed in Heq.
  rewrite hex_length, length_map, length_seq in Heq. simpl in Heq. lia.
Qed.

Lemma path_join_nonempty (dir name : string) :
  name <> ""%string -> path_join dir name <> ""%string.
Proof.
  intros Hne Heq. apply (f_equal String.length) in Heq.
  assert (0 < String.length name)%nat as Hlen by (destruct name; [done | simpl; lia]).
  assert (String.length (path_join dir name) = String.length name
          \/ String.length (path_join dir name)
             = (String.length dir + String.length name)%nat) as [Hl|Hl].
  { unfold path_join. destruct name as [|c rest]; [right; apply string_length_app|].
    destruct (Ascii.eqb_spec c "/") as [->|Hc]; [by left|].
    right. rewrite <- string_length_app.
    destruct c as [[] [] [] [] [] [] [] []]; done. }
  all: rewrite Hl in Heq; simpl in Heq; lia.
Qed.

Lemma store_ok_boot (d : gmap string (list byte)) (rnd : nat -> byte) :
  store_ok (boot d rnd).
Proof. split; intros k v; cbn [boot file_db]; by rewrite lookup_empty. Qed.

Lemma store_ok_issued (tag : string) (st : server) :
  store_ok st -> is_seed_key tag = false -> is_Some (file_db st !! tag) ->
  store_ok (issued tag st).
Proof.
  intros [Hc Hp] Hplain Hin. split; intros k v; unfold issued; cbn [file_db disk].
  - intros Hk Hnk. rewrite lookup_insert_ne in Hk; [by apply (Hc k)|].
    intros <-. by rewrite is_seed_key_seed_key in Hnk.
  - rewrite lookup_insert. case_decide as Hkey.
    + intros [= <-] _. split; [apply next_seed_nonempty|].
      exists tag. rewrite lookup_insert_ne by apply seed_key_neq. by subst k.
    + intros Hk Hsk. destruct (Hp k v Hk Hsk) as (Hv & t & -> & Ht & Hin').
      split; [done|]. exists t. repeat split; [done|].
      rewrite lookup_insert_ne; [done|].
      intros Heq. rewrite <- Heq, is_seed_key_seed_key in Ht. done.
Qed.

Lemma store_ok_consumed (tag : string) (st : server) :
  store_ok st ->
  store_ok (set_file_db (delete (seed_key tag) (file_db st)) st).
Proof.
  intros [Hc Hp]. split; intros k v; cbn [set_file_db file_db disk];
    rewrite lookup_delete; case_decide as Hkey; [done | | done |].
  - apply Hc.
  - intros Hk Hsk. destruct (Hp k v Hk Hsk) as (Hv & t & -> & Ht & Hin').
    split; [done|]. exists t. repeat split; [done|].
    rewrite lookup_delete_ne; [done|].
    intros Heq. rewrite <- Heq, is_seed_key_seed_key in Ht. done.
Qed.

Lemma store_ok_written (names : list string) (stored : list byte) (st : server) :
  store_ok st -> store_ok (set_disk (write_all names stored (disk st)) st).
Proof.
  intros [Hc Hp]. split; intros k v; cbn [set_disk file_db disk]; [|apply Hp].
  intros Hk Hnk. destruct (Hc k v Hk Hnk) as [Hv Hfile]. split; [done|].
  by apply write_all_keeps.
Qed.

Lemma store_ok_uploaded (t name : string) (names : list string) (stored : list byte)
    (st : server) :
  store_ok st -> is_seed_key t = false -> name <> ""%string ->
  store_ok (Server (<[t := path_join SERVER_STORAGE_PATH name]> (file_db st))
              (write_all (path_join SERVER_STORAGE_PATH name :: names) stored (disk st))
              (entropy st) (drawn st)).
Proof.
  intros [Hc Hp] Hplain Hname. split; intros k v; cbn [file_db disk].
  - rewrite lookup_insert. case_decide as Hkey.
    + intros [= <-] _. split; [by apply path_join_nonempty|].
      rewrite write_all_lookup_in by apply list_elem_of_here. by eexists.
    + intros Hk Hnk. destruct (Hc k v Hk Hnk) as [Hv Hfile]. split; [done|].
      by apply write_all_keeps.
  - intros Hk Hsk. rewrite lookup_insert_ne in Hk by (intros <-; congruence).
    destruct (Hp k v Hk Hsk) as (Hv & t' & -> & Ht & Hin').
    split; [done|]. exists t'. repeat split; [done|].
    rewrite lookup_insert. by case_decide.
Qed.

Lemma store_ok_handle (st st' : server) (r : request) (resp : response) :
  store_ok st -> plain_request r = true -> handle st r = (st', resp) -> store_ok st'.
Proof.
  intros Hok Hplain Hrun.
  destruct r as [tag | file tag save | tag proof];
    unfold plain_request in Hplain; cbn [request_tag handle] in Hplain, Hrun.
  - destruct (truthy tag) eqn:Htag;
      [|rewrite check_missing_tag in Hrun by done; by injection Hrun as <- <-].
    apply truthy_true in Htag as (t & -> & Hne). apply negb_true_iff in Hplain.
    destruct (file_db st !! t) as [path|] eqn:Hin.
    + rewrite check_hit in Hrun by (by rewrite ?Hin). injection Hrun as <- <-.
      apply store_ok_issued; [done .. |]. by rewrite Hin.
    + rewrite check_miss in Hrun by done. by injection Hrun as <- <-.
  - apply upload_run in Hrun.
    destruct Hrun as [msg _ | name content t names stored _ Hname -> _ _
                     | name content t names stored _ Hname -> _ _].
    + done.
    + by apply store_ok_written.
    + apply negb_true_iff in Hplain. by apply store_ok_uploaded.
  - apply verify_run in Hrun. destruct Hrun; [done .. |]. by apply store_ok_consumed.
Qed.

Lemma store_ok_serve (rs : list request) (st st' : server)
    (trace : list (request * response)) :
  store_ok st -> forallb plain_request rs = true ->
  serve st rs = (st', trace) -> store_ok st'.
Proof.
  revert st st' trace. induction rs as [|r rs IH]; intros st st' trace Hok Hplain Hrun;
    cbn [serve forallb] in Hrun, Hplain.
  - by injection Hrun as <- <-.
  - apply andb_true_iff in Hplain as [Hr Hrs].
    destruct (handle st r) as [st1 resp] eqn:Hstep.
    destruct (serve st1 rs) as [st2 trace'] eqn:Hrest.
    injection Hrun as <- <-.
    eapply IH; [|done|done]. by eapply store_ok_handle.
Qed.

Lemma store_ok_reached d rnd (rs : list request) (st : server)
    (trace : list (request * response)) :
  forallb plain_request rs = true ->
  serve (boot d rnd) rs = (st, trace) -> store_ok st.
Proof. intros Hplain Hrun. eapply store_ok_serve; [apply store_ok_boot | done ..]. Qed.

Create HintDb store.
#[local] Hint Resolve store_ok_boot store_ok_issued store_ok_consumed
  store_ok_reached : store.

(** In such a store a pending seed always leads to a comparison: the tag is
    registered, its file is readable, and the seed is consumed. *)
Lemma pending_is_checked (tag : string) (proof : option string) (st : server) :
  store_ok st -> truthy (pending st tag) = true ->
  exists path seed content server_proof,
    file_db st !! tag = Some path /\ pending st tag = Some seed
    /\ disk st !! path = Some content
    /\ generate_server_proof (disk st) path seed = Ok server_proof
    /\ verify_ownership (Some tag) proof st
       = (set_file_db (delete (seed_key tag) (file_db st)) st,
          if decide (proof = server_proof) then RespVerified else RespFailed).
Proof.
  intros [Hc Hp] Hpend. apply truthy_true in Hpend as (seed & Hseed & Hs).
  destruct (Hp _ _ Hseed (is_seed_key_seed_key tag)) as (_ & t & Heq & Ht & [path Hpath]).
  apply seed_key_inj in Heq as <-.
  destruct (Hc _ _ Hpath Ht) as (Hpne & content & Hfile).
  destruct (generate_server_proof_total (disk st) path seed content Hfile) as [sp Hgen].
  exists path, seed, content, sp. repeat split; [done .. |].
  by apply (verify_checked tag proof st path seed sp).
Qed.

Lemma hex_not_seed_key (bs : list byte) : is_seed_key (hex bs) = false.
Proof.
  induction bs as [|b bs IH]; [done|].
  cbn [hex is_seed_key]. rewrite IH.
  destruct (hex_byte_digits b) as [H1 H2].
  assert (forall c s, is_lower_hex c = true -> String.eqb (String c s) "_seed" = false) as Hno.
  { intros c s Hc. apply String.eqb_neq. intros [= -> _]. done. }
  by rewrite !Hno.
Qed.

(** The tags the claimant computes are non-empty and plain. *)
Lemma get_file_tag_plain d filepath tag :
  get_file_tag d filepath = Ok tag -> tag <> ""%string /\ is_seed_key tag = false.
Proof.
  unfold get_file_tag, open. destruct (d !! filepath) as [content|]; [|done].
  cbn [mbind result_bind]. unfold hexdigest, digest. intros [= <-].
  split; [|apply hex_not_seed_key].
  intros Heq. apply (f_equal String.length) in Heq. rewrite hex_length in Heq.
  assert (length (sha256 (update_chunks new_hasher content)) = 32%nat) as Hlen
    by apply sha256_length.
  rewrite Hlen in Heq. simpl in Heq. lia.
Qed.

(** C2: a verification that answers Verified or Failed found a pending seed
    and has deleted it, so that submitting again for the same tag, with any
    proof, answers NotFound and changes nothing. In the states the server
    reaches by plain requests, every verification that finds a pending seed
    answers Verified or Failed, hence consumes it. *)
Theorem challenge_is_single_use
  (tag proof : option string) (st st' : server) (r : response) :
  verify_ownership tag proof st = (st', r) ->
  (r = RespVerified \/ r = RespFailed ->
     exists t,
       tag = Some t
       /\ is_Some (pending st t)
       /\ pending st' t = None
       /\ forall proof', verify_ownership tag proof' st' = (st', NotFound))
  /\ (forall t d rnd rs trace,
        tag = Some t ->
        forallb plain_request rs = true ->
        serve (boot d rnd) rs = (st, trace) ->
        truthy (pending st t) = true ->
        r = RespVerified \/ r = RespFailed).
Proof.
  intros Hrun. split.
  - intros Hr. apply verify_run in Hrun.
    destruct Hrun as [ | | | t path seed sp -> Hpath Hp Hseed Hs Hgen];
      [by destruct Hr .. |].
    exists t. unfold pending. cbn [file_db set_file_db].
    rewrite lookup_delete_eq. repeat split; [by eexists|].
    intros proof'. apply verify_rejected. right. cbn [file_db set_file_db].
    by rewrite lookup_delete_eq.
  - intros t d rnd rs trace -> Hplain Hserve Hpend.
    assert (store_ok st) as Hok by eauto with store.
    destruct (pending_is_checked t proof st Hok Hpend)
      as (path & seed & content & sp & _ & _ & _ & _ & Hver).
    rewrite Hver in Hrun. injection Hrun as _ <-. case_decide; auto.
Qed.

(** ** Concrete runs *)

Lemma generate_user_proof_chained_fold_witness :
  generate_user_proof demo_disk "server_storage/big.txt" "5eed"
  = Ok (hex (chained_fold "5eed" (repeat x61 4096) [x61] [])).
Proof.
  apply (proj2 (generate_user_proof_chained_fold "5eed" (repeat x61 4096) [x61] [])).
  vm_compute. reflexivity.
Defined.

Lemma get_file_blocks_segments_witness :
  exists blocks,
    get_file_blocks demo_disk "server_storage/big.txt" = Ok blocks
    /\ concat blocks = two_block_content
    /\ (forall i b, blocks !! i = Some b -> (1 <= length b <= 4096)%nat)
    /\ (forall i b, blocks !! i = Some b -> (S i < length blocks)%nat ->
          length b = 4096%nat).
Proof.
  apply (get_file_blocks_segments demo_disk "server_storage/big.txt" two_block_content).
  vm_compute. reflexivity.
Defined.

Lemma user_and_server_proofs_agree_witness :
  exists proof,
    generate_user_proof demo_disk "server_storage/big.txt" "5eed" = Ok proof
    /\ generate_server_proof demo_disk "server_storage/big.txt" "5eed" = Ok (Some proof).
Proof.
  apply (user_and_server_proofs_agree demo_disk "server_storage/big.txt" "5eed"
           [repeat x61 4096; [x61]]).
  - vm_compute. reflexivity.
  - simpl. lia.
Defined.

Lemma small_content_outcomes_witness :
  generate_user_proof demo_disk "server_storage/small.txt" "5eed"
  = Raise (ValueError too_small_message)
  /\ generate_server_proof demo_disk "server_storage/small.txt" "5eed" = Ok None.
Proof.
  apply (proj1 (small_content_outcomes demo_disk "server_storage/small.txt" "5eed"
                  [one_block_content] ltac:(vm_compute; reflexivity))).
  simpl. lia.
Defined.

(** C4, as stated, fails on the server side: on a one-block file
    [generate_server_proof] returns [None] normally; no error is raised. *)
Lemma server_small_content_is_not_an_error :
  (exists blocks,
     get_file_blocks demo_disk "server_storage/small.txt" = Ok blocks
     /\ (length blocks < 2)%nat)
  /\ generate_server_proof demo_disk "server_storage/small.txt" "5eed" = Ok None
  /\ forall e, generate_server_proof demo_disk "server_storage/small.txt" "5eed" <> Raise e.
Proof.
  assert (generate_server_proof demo_disk "server_storage/small.txt" "5eed" = Ok None)
    as Hgen by (vm_compute; reflexivity).
  split; [|split; [exact Hgen | by rewrite Hgen]].
  exists [one_block_content]. split; [vm_compute; reflexivity | simpl; lia].
Qed.

Lemma challenge_is_single_use_witness :
  exists t,
    Some "ab"%string = Some t
    /\ is_Some (pending demo_server t)
    /\ pending (verify_ownership (Some "ab"%string) (Some "c0ffee"%string) demo_server).1 t
       = None
    /\ forall proof',
         verify_ownership (Some "ab"%string) proof'
           (verify_ownership (Some "ab"%string) (Some "c0ffee"%string) demo_server).1
         = ((verify_ownership (Some "ab"%string) (Some "c0ffee"%string) demo_server).1,
            NotFound).
Proof.
  apply (proj1 (challenge_is_single_use (Some "ab"%string) (Some "c0ffee"%string)
                  demo_server _ RespFailed ltac:(vm_compute; reflexivity))).
  right. reflexivity.
Defined.

Lemma verify_not_found_is_atomic_witness :
  verify_ownership (Some "ab"%string) (Some "c0ffee"%string) idle_server
  = (idle_server, NotFound)
  /\ forall d',
       verify_ownership (Some "ab"%string) (Some "c0ffee"%string)
         (Server (file_db idle_server) d' (entropy idle_server) (drawn idle_server))
       = (Server (file_db idle_server) d' (entropy idle_server) (drawn idle_server),
          NotFound).
Proof.
  apply (proj2 (verify_not_found_is_atomic (Some "ab"%string) (Some "c0ffee"%string)
                  idle_server) "ab"%string).
  - reflexivity.
  - right. vm_compute. reflexivity.
Defined.

Lemma issued_seed_format_witness :
  String.length (next_seed demo_server) = 32%nat.
Proof.
  apply (proj1 (proj2 (issued_seed_format (Some "ab"%string) demo_server
                         (issued "ab" demo_server) (next_seed demo_server)
                         ltac:(vm_compute; reflexivity)))).
Defined.

Lemma check_tag_new_iff_unregistered_witness :
  (handle_upload_check (Some "ab"%string) (serve (boot ∅ demo_entropy) register_ab).1).2
  <> RespNew.
Proof.
  pose proof (proj2 check_tag_new_iff_unregistered ∅ demo_entropy register_ab "ab"%string
                (serve (boot ∅ demo_entropy) register_ab).1
                (serve (boot ∅ demo_entropy) register_ab).2
                ltac:(done) ltac:(reflexivity) ltac:(reflexivity)) as [Hiff _].
  intros Hnew. apply Hiff in Hnew. vm_compute in Hnew. discriminate.
Defined.

(** C7, as stated, fails at the empty tag: it was never registered, yet the
    answer is the validation error, not New. *)
Lemma check_empty_tag_is_not_new :
  registered "" (serve (boot ∅ demo_entropy) []).2 = false
  /\ (handle_upload_check (Some ""%string) (serve (boot ∅ demo_entropy) []).1).2
     = BadRequest "File tag missing."
  /\ (handle_upload_check (Some ""%string) (serve (boot ∅ demo_entropy) []).1).2
     <> RespNew.
Proof. repeat split. discriminate. Qed.

(** The seed entries share [file_db] with the registrations: after a hit
    for [ab], the key [ab_seed] answers Exists though no upload carried it. *)
Example seed_key_collision :
  let run := serve (boot ∅ demo_entropy)
               (register_ab ++ [CheckTag (Some "ab"%string); CheckTag (Some "ab_seed"%string)]) in
  registered "ab_seed" run.2 = false
  /\ map snd run.2
     = [RespUploaded "small.txt";
        RespExists "030a11181f262d343b424950575e656c";
        RespExists "737a81888f969da4abb2b9c0c7ced5dc"].
Proof. vm_compute. done. Qed.

(** On a stored file of a single block the server proof is [None], which
    equals an absent proof field. *)
Example small_content_absent_proof :
  (verify_ownership (Some "ab"%string) None demo_server).2 = RespVerified
  /\ (verify_ownership (Some "ab"%string) (Some "c0ffee"%string) demo_server).2 = RespFailed.
Proof. vm_compute. done. Qed.

(** Reference values computed with [hashlib]. *)
Example sha256_two_chunks :
  hex (sha256 (encode "abcdbcdecdefdefgefghfghighijhijkijkljklmklmnlmnomnopnopq"))
  = "248d6a61d20638b8e5c026930c3e6039a33ce45964ff2167f6ecedd419db06c1"%string.
Proof. vm_compute. reflexivity. Qed.

Example proof_of_two_blocks :
  generate_user_proof demo_disk "server_storage/big.txt" "00"
  = Ok "b408d960dd5e64398dc67e52cffcd4799d3c67d72ac942c250c2c9e9d22677a2"%string.
Proof. vm_compute. reflexivity. Qed.

(** The end-to-end scenario: 12000 bytes make three blocks; a miss, the
    registration, a hit, the claimant's proof accepted once and not found the
    second time. *)
Example end_to_end :
  let content := repeat x61 4096 ++ repeat x61 4096 ++ repeat x61 3808 in
  let local := {["my_file.txt"%string := content]} in
  let tag := match get_file_tag local "my_file.txt" with
             | Ok t => Some t
             | Raise _ => None
             end in
  let st0 := boot ∅ demo_entropy in
  let (st1, r1) := handle_upload_check tag st0 in
  let (st2, r2) := upload_full_file (Some ("my_file.txt"%string, content)) tag
                     (Saved [] content) st1 in
  let (st3, r3) := handle_upload_check tag st2 in
  let seed := next_seed st2 in
  let proof := match generate_user_proof local "my_file.txt" seed with
               | Ok p => Some p
               | Raise _ => None
               end in
  let (st4, r4) := verify_ownership tag proof st3 in
  let (st5, r5) := verify_ownership tag proof st4 in
  map length (read_blocks content) = [4096; 4096; 3808]%nat
  /\ [r1; r2; r3; r4; r5]
     = [RespNew; RespUploaded "my_file.txt"; RespExists seed; RespVerified; NotFound]
  /\ is_Some tag /\ is_Some proof.
Proof. vm_compute. repeat split; by eexists. Qed.

(** * Further properties of the code *)

(** ** Tags, blocks and proofs *)

Lemma hex_digest_text (bs : list byte) : length bs = 32%nat -> is_digest_text (hex bs).
Proof. intros Hlen. split; [rewrite hex_length; lia | apply hex_lower]. Qed.

Lemma open_missing d filepath : d !! filepath = None -> open d filepath = Raise OSError.
Proof. unfold open. by intros ->. Qed.

(** X1: the tag of a readable file is the hex SHA-256 digest of its whole
    content, however the content splits into chunks, so equal contents get
    equal tags whatever their paths; a file that cannot be opened raises. *)
Theorem get_file_tag_content_addressed
  (d1 d2 : gmap string (list byte)) (path1 path2 : string) (content : list byte) :
  d1 !! path1 = Some content ->
  (get_file_tag d1 path1 = Ok (hex (sha256 content))
   /\ (d2 !! path2 = Some content -> get_file_tag d2 path2 = get_file_tag d1 path1)
   /\ (d2 !! path2 = None -> get_file_tag d2 path2 = Raise OSError)).
Proof.
  intros H1. rewrite (get_file_tag_digest d1 path1 content H1). repeat split.
  - intros H2. by apply get_file_tag_digest.
  - intros H2. unfold get_file_tag. by rewrite open_missing.
Qed.

(** X2: every tag [get_file_tag] returns is a text of 64 lowercase
    hexadecimal digits; it is therefore non-empty and does not end in
    [_seed]. *)
Theorem get_file_tag_format (d : gmap string (list byte)) (filepath tag : string) :
  get_file_tag d filepath = Ok tag ->
  is_digest_text tag /\ tag <> ""%string /\ is_seed_key tag = false.
Proof.
  intros Htag. destruct (get_file_tag_plain d filepath tag Htag) as [Hne Hplain].
  split; [|done].
  unfold get_file_tag, open in Htag. destruct (d !! filepath) as [content|]; [|done].
  cbn [mbind result_bind] in Htag. injection Htag as <-.
  apply hex_digest_text, sha256_length.
Qed.

Lemma block_count_step (n len : nat) :
  (0 < n)%nat -> (0 < len)%nat ->
  ((len + n - 1) / n = S ((len - n + n - 1) / n))%nat.
Proof.
  intros Hn Hlen. destruct (Nat.le_gt_cases len n) as [Hle|Hgt].
  - replace (len - n + n - 1)%nat with (n - 1)%nat by lia.
    rewrite (Nat.div_small (n - 1) n) by lia.
    replace (len + n - 1)%nat with ((len - 1) + 1 * n)%nat by lia.
    rewrite Nat.div_add by lia. rewrite Nat.div_small by lia. done.
  - replace (len + n - 1)%nat with ((len - n + n - 1) + 1 * n)%nat by lia.
    rewrite Nat.div_add by lia. lia.
Qed.

Lemma read_blocks_count (f : list byte) :
  length (read_blocks f) = ((length f + BLOCK_SIZE - 1) / BLOCK_SIZE)%nat.
Proof.
  remember (length f) as n eqn:Hn. revert f Hn.
  induction n as [n IH] using lt_wf_ind. intros f ->.
  pose proof BLOCK_SIZE_pos as Hpos.
  destruct f as [|b f].
  { rewrite read_blocks_nil. cbn [length]. rewrite Nat.div_small; lia. }
  rewrite read_blocks_cons. cbn [length].
  rewrite (IH (length (drop BLOCK_SIZE (b :: f)))); [|rewrite length_drop; cbn [length]; lia|done].
  rewrite length_drop. cbn [length].
  symmetry. apply block_count_step; lia.
Qed.

Lemma two_blocks_iff (f : list byte) :
  (2 <= length (read_blocks f))%nat <-> (BLOCK_SIZE < length f)%nat.
Proof.
  pose proof BLOCK_SIZE_pos as Hpos.
  destruct f as [|b f]; [rewrite read_blocks_nil; cbn [length]; lia|].
  rewrite read_blocks_cons. cbn [length].
  pose proof (read_blocks_empty_iff (drop BLOCK_SIZE (b :: f))) as Hempty.
  destruct (read_blocks (drop BLOCK_SIZE (b :: f))) as [|r rs] eqn:Hrest.
  - assert (length (drop BLOCK_SIZE (b :: f)) = 0%nat) as Hlen
      by (by rewrite (proj1 Hempty eq_refl)).
    rewrite length_drop in Hlen. cbn [length] in *. lia.
  - assert (length (drop BLOCK_SIZE (b :: f)) <> 0%nat) as Hlen.
    { intros Hz. apply length_zero_iff_nil in Hz. by apply Hempty in Hz. }
    rewrite length_drop in Hlen. cbn [length] in *. lia.
Qed.

(** X3: a readable file of [n] bytes is cut into [ceil(n / 4096)] blocks; in
    particular an empty file gives no block at all. *)
Theorem get_file_blocks_count
  (d : gmap string (list byte)) (filepath : string) (content : list byte) :
  d !! filepath = Some content ->
  exists blocks,
    get_file_blocks d filepath = Ok blocks
    /\ length blocks = ((length content + 4095) / 4096)%nat
    /\ (blocks = [] <-> content = []).
Proof.
  intros Hfile. exists (read_blocks content).
  unfold get_file_blocks, open. rewrite Hfile. split; [done|].
  split; [|apply read_blocks_empty_iff].
  rewrite read_blocks_count, BLOCK_SIZE_val. f_equal. lia.
Qed.

Lemma chain_length (seed : string) (rest : list (list byte)) (i : Z) (acc : list byte) :
  length acc = 32%nat -> length (chain seed i acc rest) = 32%nat.
Proof.
  revert i acc. induction rest as [|b rest IH]; intros i acc Hacc; [done|].
  cbn [chain]. apply IH, sha256_length.
Qed.

Lemma chained_fold_length (seed : string) (b1 b2 : list byte) (rest : list (list byte)) :
  length (chained_fold seed b1 b2 rest) = 32%nat.
Proof. apply chain_length, sha256_length. Qed.

Lemma user_resp_gen_cases (blocks : list (list byte)) (seed : string) :
  ((length blocks < 2)%nat
   /\ user_resp_gen blocks seed = Raise (ValueError too_small_message)
   /\ server_resp_gen blocks seed = Ok None)
  \/ (exists b1 b2 rest,
        blocks = b1 :: b2 :: rest
        /\ user_resp_gen blocks seed = Ok (hex (chained_fold seed b1 b2 rest))
        /\ server_resp_gen blocks seed = Ok (Some (hex (chained_fold seed b1 b2 rest)))).
Proof.
  destruct (Nat.lt_ge_cases (length blocks) 2) as [Hlt|Hge].
  - left. split; [done|]. by apply small_resp_gen.
  - right. destruct (at_least_two blocks Hge) as (b1 & b2 & rest & ->).
    exists b1, b2, rest. by rewrite user_resp_gen_chain, server_resp_gen_chain.
Qed.

(** X4: on a readable file the claimant's function returns a proof exactly
    when the file is longer than one block (4096 bytes) and raises the
    too-small [ValueError] otherwise; on a missing file it raises [OSError]. *)
Theorem generate_user_proof_applies
  (d : gmap string (list byte)) (filepath seed : string) :
  (d !! filepath = None -> generate_user_proof d filepath seed = Raise OSError)
  /\ forall content,
       d !! filepath = Some content ->
       ((4096 < length content)%nat ->
          exists proof, generate_user_proof d filepath seed = Ok proof)
       /\ ((length content <= 4096)%nat ->
             generate_user_proof d filepath seed = Raise (ValueError too_small_message)).
Proof.
  split.
  - intros Hnone. unfold generate_user_proof, get_file_blocks. by rewrite open_missing.
  - intros content Hfile.
    assert (generate_user_proof d filepath seed = user_resp_gen (read_blocks content) seed)
      as -> by (unfold generate_user_proof, get_file_blocks, open; by rewrite Hfile).
    pose proof (two_blocks_iff content) as Htwo. rewrite BLOCK_SIZE_val in Htwo.
    destruct (user_resp_gen_cases (read_blocks content) seed)
      as [(Hlt & -> & _) | (b1 & b2 & rest & Hbs & -> & _)].
    + split; [intros Hlen; apply Htwo in Hlen; lia | done].
    + split; [by eexists|]. intros Hlen.
      assert (2 <= length (read_blocks content))%nat as H2
        by (rewrite Hbs; cbn [length]; lia).
      apply Htwo in H2. lia.
Qed.

(** X5: a proof returned by either engine is a text of 64 lowercase
    hexadecimal digits. *)
Theorem proof_format (d : gmap string (list byte)) (filepath seed proof : string) :
  generate_user_proof d filepath seed = Ok proof
  \/ generate_server_proof d filepath seed = Ok (Some proof) ->
  is_digest_text proof.
Proof.
  unfold generate_user_proof, generate_server_proof.
  destruct (get_file_blocks d filepath) as [blocks|e]; [|by intros [|]].
  cbn [mbind result_bind].
  destruct (user_resp_gen_cases blocks seed)
    as [(_ & -> & ->) | (b1 & b2 & rest & _ & -> & ->)]; [by intros [|]|].
  intros [[= <-] | [= <-]]; apply hex_digest_text, chained_fold_length.
Qed.

Lemma encode_app (s1 s2 : string) : encode (s1 +:+ s2) = encode s1 ++ encode s2.
Proof.
  unfold encode, list_byte_of_string. induction s1 as [|c s1 IH]; [done|].
  change (String c s1 +:+ s2) with (String c (s1 +:+ s2)).
  cbn [list_ascii_of_string map app]. by f_equal.
Qed.

(** X6: the mask [prg] returns is 32 bytes long for every seed and index,
    and it only depends on the text of the seed followed by the decimal text
    of the index: [prg "ab1" 2] and [prg "ab" 12] hash the same bytes. *)
Theorem prg_mask_bytes (seed : string) (i : Z) :
  length (prg seed i) = 32%nat
  /\ prg seed i = sha256 (encode (seed +:+ str i))
  /\ forall seed' i', seed' +:+ str i' = seed +:+ str i -> prg seed' i' = prg seed i.
Proof.
  assert (forall s j, prg s j = sha256 (encode (s +:+ str j))) as Hprg.
  { intros s j. unfold prg, digest, update, new_hasher. cbn [app].
    by rewrite encode_app. }
  split; [apply sha256_length|]. split; [apply Hprg|].
  intros seed' i' Heq. by rewrite !Hprg, Heq.
Qed.

Lemma server_raises_only_OSError (d : gmap string (list byte)) (filepath seed : string)
    (e : exn) :
  generate_server_proof d filepath seed = Raise e -> e = OSError.
Proof.
  unfold generate_server_proof, get_file_blocks, open.
  destruct (d !! filepath) as [content|]; cbn [mbind result_bind]; [|by intros [= <-]].
  by destruct (server_resp_gen_total (read_blocks content) seed) as [sp ->].
Qed.

(** X7: the engines index their block list within bounds: the claimant's
    function raises nothing but [OSError] and the too-small [ValueError],
    the server's function nothing but [OSError]. *)
Theorem engines_exceptions (d : gmap string (list byte)) (filepath seed : string) (e : exn) :
  (generate_user_proof d filepath seed = Raise e ->
     e = OSError \/ e = ValueError too_small_message)
  /\ (generate_server_proof d filepath seed = Raise e -> e = OSError).
Proof.
  unfold generate_user_proof, generate_server_proof, get_file_blocks, open.
  destruct (d !! filepath) as [content|]; cbn [mbind result_bind].
  - destruct (user_resp_gen_cases (read_blocks content) seed)
      as [(_ & -> & ->) | (b1 & b2 & rest & _ & -> & ->)].
    + split; [intros [= <-]; by right | done].
    + split; done.
  - split; intros [= <-]; auto.
Qed.

(** ** Uploads *)

Lemma upload_ok (name : string) (content : list byte) (t : string)
    (names : list string) (stored : list byte) (st : server) :
  name <> ""%string -> t <> ""%string ->
  upload_full_file (Some (name, content)) (Some t) (Saved names stored) st
  = (Server (<[t := path_join SERVER_STORAGE_PATH name]> (file_db st))
            (write_all (path_join SERVER_STORAGE_PATH name :: names) stored (disk st))
            (entropy st) (drawn st),
     RespUploaded name).
Proof.
  intros Hname Ht. unfold upload_full_file.
  destruct (String.eqb_spec name ""); [done|].
  assert (truthy (Some t) = true) as -> by (apply truthy_true; eauto).
  reflexivity.
Qed.

(** X8: an upload is refused with a 400 answer exactly when the file part is
    missing, the file name is empty, or the tag is missing or empty; a
    refused upload changes nothing. *)
Theorem upload_validation
  (file : option (string * list byte)) (tag : option string) (save : save_result)
  (st : server) :
  ((exists msg, (upload_full_file file tag save st).2 = BadRequest msg)
   <-> (file = None \/ (exists content, file = Some (""%string, content))
        \/ truthy tag = false))
  /\ (forall msg, (upload_full_file file tag save st).2 = BadRequest msg ->
        (upload_full_file file tag save st).1 = st).
Proof.
  destruct (upload_cases file tag save st)
    as [msg Hbad | name content t names stored -> Hname -> Ht _
       | name content t names stored -> Hname -> Ht _].
  - split; [|done]. split; [done | by eexists].
  - split; [|done]. split; [by intros [? ?]|].
    intros [H | [[c H] | H]]; [done | by injection H as -> | ].
    assert (truthy (Some t) = true) by (apply truthy_true; eauto). congruence.
  - split; [|done]. split; [by intros [? ?]|].
    intros [H | [[c H] | H]]; [done | by injection H as -> | ].
    assert (truthy (Some t) = true) by (apply truthy_true; eauto). congruence.
Qed.

(** X9: an upload that is answered Uploaded had a file part with a non-empty
    name, a non-empty tag and a save that returned; it records
    [tag -> os.path.join("server_storage/", filename)] (an absolute file name
    is kept as it is) and changes no other key; the path now reads what the
    save stored, files not written by the save are as before, none has
    disappeared, the entropy source is untouched, and the tag is a dedup
    hit. *)
Theorem upload_stores_and_registers
  (file : option (string * list byte)) (tag : option string) (save : save_result)
  (st st' : server) (name : string) :
  upload_full_file file tag save st = (st', RespUploaded name) ->
  exists content t names stored path,
    file = Some (name, content) /\ tag = Some t /\ save = Saved names stored
    /\ name <> ""%string /\ t <> ""%string
    /\ path = (match name with
               | String "/" _ => name
               | _ => "server_storage/" +:+ name
               end)%string
    /\ file_db st' !! t = Some path
    /\ (forall k, k <> t -> file_db st' !! k = file_db st !! k)
    /\ disk st' !! path = Some stored
    /\ get_file_blocks (disk st') path = Ok (read_blocks stored)
    /\ (forall p, p <> path -> p ∉ names -> disk st' !! p = disk st !! p)
    /\ (forall p, is_Some (disk st !! p) -> is_Some (disk st' !! p))
    /\ entropy st' = entropy st /\ drawn st' = drawn st
    /\ exists seed, (handle_upload_check (Some t) st').2 = RespExists seed.
Proof.
  intros (content & t & names & stored & -> & -> & -> & Hname & Ht & ->)%upload_done_inv.
  set (path := path_join SERVER_STORAGE_PATH name).
  assert (write_all (path :: names) stored (disk st) !! path = Some stored) as Hread
    by apply write_all_lookup_in, list_elem_of_here.
  exists content, t, names, stored, path. cbn [file_db disk entropy drawn].
  rewrite lookup_insert_eq. repeat split; try done.
  - intros k Hk. by rewrite lookup_insert_ne.
  - unfold get_file_blocks, open. by rewrite Hread.
  - intros p Hp Hnot. apply write_all_lookup_notin. by apply not_elem_of_cons.
  - intros p. apply write_all_keeps.
  - rewrite check_hit; [by eexists | done |].
    cbn [file_db]. rewrite lookup_insert_eq. by eexists.
Qed.

(** X10: files are stored by name, not by tag: when two uploads of the same
    file name are both saved and answered Uploaded, both tags point to one
    path and that path reads what the second save stored, so the server
    proof for the first tag is computed from the second upload. *)
Theorem same_filename_overwrites
  (name : string) (c1 c2 : list byte) (t1 t2 : string)
  (names1 names2 : list string) (stored1 stored2 : list byte) (st st1 st2 : server) :
  t1 <> t2 ->
  upload_full_file (Some (name, c1)) (Some t1) (Saved names1 stored1) st
  = (st1, RespUploaded name) ->
  upload_full_file (Some (name, c2)) (Some t2) (Saved names2 stored2) st1
  = (st2, RespUploaded name) ->
  exists path,
    file_db st2 !! t1 = Some path /\ file_db st2 !! t2 = Some path
    /\ disk st2 !! path = Some stored2
    /\ forall seed,
         generate_server_proof (disk st2) path seed
         = server_resp_gen (read_blocks stored2) seed.
Proof.
  intros Hne Hup1 Hup2. exists (path_join SERVER_STORAGE_PATH name).
  assert (name <> ""%string /\ t1 <> ""%string /\ t2 <> ""%string) as (Hname & H1 & H2).
  { apply upload_done_inv in Hup1 as (? & ? & ? & ? & _ & [= <-] & _ & Hname & H1 & _).
    apply upload_done_inv in Hup2 as (? & ? & ? & ? & _ & [= <-] & _ & _ & H2 & _).
    done. }
  rewrite upload_ok in Hup1 by done. injection Hup1 as <-.
  rewrite upload_ok in Hup2 by done. injection Hup2 as <-.
  cbn [file_db disk].
  assert (write_all (path_join SERVER_STORAGE_PATH name :: names2) stored2
            (write_all (path_join SERVER_STORAGE_PATH name :: names1) stored1 (disk st))
          !! path_join SERVER_STORAGE_PATH name = Some stored2) as Hread
    by apply write_all_lookup_in, list_elem_of_here.
  rewrite lookup_insert_ne, !lookup_insert_eq by done.
  split; [done|]. split; [done|]. split; [done|].
  intros seed. unfold generate_server_proof, get_file_blocks, open.
  by rewrite lookup_insert_eq.
Qed.

(** ** The protocol *)

Lemma issued_lookup_tag (t : string) (st : server) :
  file_db (issued t st) !! t = file_db st !! t.
Proof. unfold issued. cbn [file_db]. apply lookup_insert_ne, seed_key_neq. Qed.

Lemma issued_pending (t : string) (st : server) :
  pending (issued t st) t = Some (next_seed st).
Proof. unfold pending, issued. cbn [file_db]. apply lookup_insert_eq. Qed.

(** X11: the protocol is complete for an honest claimant: when the upload
    of a content longer than 4096 bytes is saved and reads back as that
    content, the dedup check for its tag is a hit, the proof the claimant
    computes from an own copy with the issued seed is answered Verified, and
    submitting again is NotFound. *)
Theorem honest_claimant_is_verified
  (name : string) (content : list byte) (t : string) (names : list string)
  (st : server) (local : gmap string (list byte)) (localpath : string) :
  name <> ""%string -> t <> ""%string ->
  local !! localpath = Some content -> (4096 < length content)%nat ->
  exists st1 st2 st3 seed proof,
    upload_full_file (Some (name, content)) (Some t) (Saved names content) st
    = (st1, RespUploaded name)
    /\ handle_upload_check (Some t) st1 = (st2, RespExists seed)
    /\ generate_user_proof local localpath seed = Ok proof
    /\ verify_ownership (Some t) (Some proof) st2 = (st3, RespVerified)
    /\ forall proof', verify_ownership (Some t) proof' st3 = (st3, NotFound).
Proof.
  intros Hname Ht Hlocal Hlen.
  set (path := path_join SERVER_STORAGE_PATH name).
  set (st1 := Server (<[t := path]> (file_db st))
                     (write_all (path :: names) content (disk st))
                     (entropy st) (drawn st)).
  assert (file_db st1 !! t = Some path) as Hdb by apply lookup_insert_eq.
  assert (disk st1 !! path = Some content) as Hdisk
    by apply write_all_lookup_in, list_elem_of_here.
  assert (2 <= length (read_blocks content))%nat as Htwo
    by (apply two_blocks_iff; rewrite BLOCK_SIZE_val; lia).
  destruct (user_resp_gen_cases (read_blocks content) (next_seed st1))
    as [(Hlt & _) | (b1 & b2 & rest & Hbs & Huser & Hserver)]; [lia|].
  set (proof := hex (chained_fold (next_seed st1) b1 b2 rest)) in *.
  exists st1, (issued t st1),
    (set_file_db (delete (seed_key t) (file_db (issued t st1))) (issued t st1)),
    (next_seed st1), proof.
  split; [by apply upload_ok|].
  split; [apply check_hit; [done | by rewrite Hdb]|].
  split.
  { unfold generate_user_proof, get_file_blocks, open. by rewrite Hlocal. }
  split.
  - rewrite (verify_checked t (Some proof) (issued t st1) path (next_seed st1) (Some proof)).
    + by rewrite decide_True.
    + by rewrite issued_lookup_tag.
    + by apply path_join_nonempty.
    + apply issued_pending.
    + apply next_seed_nonempty.
    + unfold generate_server_proof, get_file_blocks, open.
      change (disk (issued t st1)) with (disk st1). by rewrite Hdisk.
  - intros proof'. apply verify_rejected. right. cbn [set_file_db file_db].
    by rewrite lookup_delete_eq.
Qed.

(** X12: a request that is not served, whether answered New, with an error
    status or by an exception, changes neither [file_db] nor the entropy
    source; it leaves the whole state as it was unless it is an upload whose
    save raised, in which case the files are what the failed save left of
    them (unchanged when it had opened nothing). *)
Theorem unserved_requests_change_nothing
  (st st' : server) (r : request) (resp : response) :
  handle st r = (st', resp) ->
  resp = RespNew \/ (exists code msg, resp = RespError code msg)
  \/ (exists e, resp = RespRaised e) ->
  file_db st' = file_db st /\ entropy st' = entropy st /\ drawn st' = drawn st
  /\ match r with
     | RegisterContent file tag (SaveRaised names stored) =>
         st' = st
         \/ (resp = RespRaised OSError
             /\ disk st' = write_all names stored (disk st)
             /\ (names = [] -> st' = st))
     | _ => st' = st
     end.
Proof.
  intros Hrun Hresp.
  destruct r as [tag | file tag save | tag proof]; cbn [handle] in Hrun.
  - destruct (truthy tag) eqn:Htag;
      [|rewrite check_missing_tag in Hrun by done; by injection Hrun as <- _].
    apply truthy_true in Htag as (t & -> & Hne).
    destruct (file_db st !! t) as [path|] eqn:Hin.
    + rewrite check_hit in Hrun by (by rewrite ?Hin). injection Hrun as _ <-.
      by destruct Hresp as [? | [(? & ? & ?) | [? ?]]].
    + rewrite check_miss in Hrun by done. by injection Hrun as <- _.
  - apply upload_run in Hrun.
    destruct Hrun as [msg _ | name content t names stored _ _ _ _ ->
                     | name content t names stored _ _ _ _ ->].
    + do 3 (split; [done|]). destruct save; [by left | done].
    + cbn [set_disk file_db entropy drawn disk]. do 3 (split; [done|]).
      right. do 2 (split; [done|]). intros ->. by destruct st.
    + by destruct Hresp as [? | [(? & ? & ?) | [? ?]]].
  - apply verify_run in Hrun. destruct Hrun as [ | | | t path seed sp]; [done .. |].
    case_decide; by destruct Hresp as [? | [(? & ? & ?) | [? ?]]].
Qed.

(** X13: what a request can touch: none changes the entropy source or moves
    its read position backwards; the dedup check and the verification never
    write a file and change no key but the tag's seed key; an upload changes
    no key but its tag. *)
Theorem handlers_frame (st st' : server) (r : request) (resp : response) :
  handle st r = (st', resp) ->
  entropy st' = entropy st /\ (drawn st <= drawn st')%nat
  /\ (match r with RegisterContent _ _ _ => True | _ => disk st' = disk st end)
  /\ forall k, file_db st' !! k <> file_db st !! k ->
       match r with
       | CheckTag (Some t) | SubmitProof (Some t) _ => k = seed_key t
       | RegisterContent _ (Some t) _ => k = t
       | _ => False
       end.
Proof.
  intros Hrun. destruct r as [tag | file tag save | tag proof]; cbn [handle] in Hrun.
  - destruct (truthy tag) eqn:Htag.
    + apply truthy_true in Htag as (t & -> & Hne).
      destruct (file_db st !! t) as [path|] eqn:Hin.
      * rewrite check_hit in Hrun by (by rewrite ?Hin). injection Hrun as <- _.
        cbn [issued entropy drawn disk file_db]. repeat split; [lia|].
        intros k Hk. destruct (decide (k = seed_key t)) as [|Hne']; [done|].
        by rewrite lookup_insert_ne in Hk.
      * rewrite check_miss in Hrun by done. injection Hrun as <- _.
        repeat split; [lia | done].
    + rewrite check_missing_tag in Hrun by done. injection Hrun as <- _.
      repeat split; [lia|]. intros k Hk. by destruct tag.
  - apply upload_run in Hrun.
    destruct Hrun as [msg _ | name content t names stored _ _ -> _ _
                     | name content t names stored _ _ -> _ _].
    + repeat split; [lia|]. intros k Hk. by destruct tag.
    + cbn [set_disk entropy drawn file_db]. repeat split; [lia | done].
    + cbn [entropy drawn file_db]. repeat split; [lia|].
      intros k Hk. destruct (decide (k = t)) as [|Hne']; [done|].
      by rewrite lookup_insert_ne in Hk.
  - apply verify_run in Hrun.
    destruct Hrun as [-> | t -> | t path seed e -> | t path seed sp ->];
      [repeat split; (lia || done) .. |].
    cbn [set_file_db entropy drawn disk file_db]. repeat split; [lia|].
    intros k Hk. destruct (decide (k = seed_key t)) as [|Hne']; [done|].
    by rewrite lookup_delete_ne in Hk.
Qed.

(** ** Seeds and the entropy source *)

Lemma handle_draws (st st' : server) (r : request) (resp : response) :
  handle st r = (st', resp) ->
  entropy st' = entropy st
  /\ ((exists seed, resp = RespExists seed /\ seed = next_seed st
                    /\ drawn st' = (drawn st + 16)%nat)
      \/ ((forall seed, resp <> RespExists seed) /\ drawn st' = drawn st)).
Proof.
  intros Hrun. destruct r as [tag | file tag save | tag proof]; cbn [handle] in Hrun.
  - destruct (truthy tag) eqn:Htag.
    + apply truthy_true in Htag as (t & -> & Hne).
      destruct (file_db st !! t) as [path|] eqn:Hin.
      * rewrite check_hit in Hrun by (by rewrite ?Hin). injection Hrun as <- <-.
        split; [done|]. left. exists (next_seed st). by repeat split.
      * rewrite check_miss in Hrun by done. injection Hrun as <- <-. split; [done | by right].
    + rewrite check_missing_tag in Hrun by done. injection Hrun as <- <-.
      split; [done | by right].
  - apply upload_run in Hrun.
    destruct Hrun; (split; [done|]); by right.
  - apply verify_run in Hrun.
    destruct Hrun; (split; [done|]); right; (split; [|done]); try done.
    intros seed'. by case_decide.
Qed.

Lemma entropy_window_shift (rnd : nat -> byte) (start k : nat) :
  entropy_window rnd (start + 16) k = entropy_window rnd start (S k).
Proof. unfold entropy_window. do 2 f_equal. lia. Qed.

Lemma issued_seeds_hit (r : request) (seed : string) (trace : list (request * response)) :
  issued_seeds ((r, RespExists seed) :: trace) = seed :: issued_seeds trace.
Proof. reflexivity. Qed.

Lemma issued_seeds_other (r : request) (resp : response)
    (trace : list (request * response)) :
  (forall seed, resp <> RespExists seed) ->
  issued_seeds ((r, resp) :: trace) = issued_seeds trace.
Proof. intros Hno. destruct resp; try reflexivity. by destruct (Hno seed). Qed.

(** X14: the seeds issued along a run are the hex texts of consecutive,
    non-overlapping runs of 16 entropy bytes, in the order of issue, and the
    read position ends 16 bytes further for each seed issued; no other
    request consumes entropy. *)
Theorem seeds_consume_entropy_in_order
  (rs : list request) (st st' : server) (trace : list (request * response)) :
  serve st rs = (st', trace) ->
  entropy st' = entropy st
  /\ drawn st' = (drawn st + 16 * length (issued_seeds trace))%nat
  /\ issued_seeds trace
     = map (fun k => hex (entropy_window (entropy st) (drawn st) k))
           (seq 0 (length (issued_seeds trace))).
Proof.
  revert st st' trace. induction rs as [|r rs IH]; intros st st' trace Hrun;
    cbn [serve] in Hrun.
  - injection Hrun as <- <-. cbn. split; [done|]. split; [lia | done].
  - destruct (handle st r) as [st1 resp] eqn:Hstep.
    destruct (serve st1 rs) as [st2 trace'] eqn:Hrest.
    injection Hrun as <- <-.
    destruct (IH _ _ _ Hrest) as (He & Hd & Hs).
    destruct (handle_draws _ _ _ _ Hstep) as [He1 [(seed & -> & -> & Hd1) | [Hno Hd1]]].
    + rewrite issued_seeds_hit. cbn [length seq map].
      rewrite He, He1, Hd, Hd1. split; [done|]. split; [lia|].
      f_equal.
      * unfold next_seed, entropy_window. do 3 f_equal. lia.
      * rewrite Hs at 1. rewrite He1, Hd1, <- seq_shift, map_map.
        apply map_ext. intros k. by rewrite entropy_window_shift.
    + rewrite (issued_seeds_other r resp trace' Hno).
      rewrite He, He1, Hd, Hd1. split; [done|]. split; [done|].
      rewrite Hs at 1. by rewrite He1, Hd1.
Qed.

Lemma unhex_hex (bs : list byte) : unhex (hex bs) = bs.
Proof.
  induction bs as [|b bs IH]; [done|].
  cbn [hex unhex]. rewrite IH. f_equal. destruct b; vm_compute; reflexivity.
Qed.

(** X15: an issued seed reads back, two hexadecimal digits per byte, as the
    16 entropy bytes it was made of; hence two issued seeds are equal exactly
    when the entropy bytes drawn for them are. *)
Theorem issued_seed_decodes
  (tag1 tag2 : option string) (st1 st1' st2 st2' : server) (seed1 seed2 : string) :
  handle_upload_check tag1 st1 = (st1', RespExists seed1) ->
  handle_upload_check tag2 st2 = (st2', RespExists seed2) ->
  unhex seed1 = entropy_window (entropy st1) (drawn st1) 0
  /\ (seed1 = seed2
      <-> entropy_window (entropy st1) (drawn st1) 0
          = entropy_window (entropy st2) (drawn st2) 0).
Proof.
  intros (_ & _ & _ & _ & -> & _)%check_exists_inv (_ & _ & _ & _ & -> & _)%check_exists_inv.
  assert (forall st, next_seed st = hex (entropy_window (entropy st) (drawn st) 0)) as Hnext.
  { intros st. unfold next_seed, entropy_window. do 3 f_equal. lia. }
  rewrite !Hnext, unhex_hex. split; [done|]. split; [|by intros ->].
  intros Heq. apply (f_equal unhex) in Heq. by rewrite !unhex_hex in Heq.
Qed.

(** ** Registrations and verifications *)

(** X16: a registration under a tag that does not end in [_seed] is never
    removed: whatever requests follow, the tag stays in [file_db] and its
    dedup check stays a hit. *)
Theorem registration_persists
  (t : string) (rs : list request) (st st' : server)
  (trace : list (request * response)) :
  t <> ""%string -> is_seed_key t = false -> is_Some (file_db st !! t) ->
  serve st rs = (st', trace) ->
  is_Some (file_db st' !! t)
  /\ exists seed, (handle_upload_check (Some t) st').2 = RespExists seed.
Proof.
  intros Hne Hplain Hin Hrun.
  assert (is_Some (file_db st' !! t)) as Hin'.
  { pose proof (serve_content_keys t rs st st' trace (not_seed_key t Hplain) Hrun) as Hkeys.
    destruct (file_db st' !! t) eqn:E; [by eexists|].
    destruct (proj1 Hkeys eq_refl) as [Hnone _]. rewrite Hnone in Hin. by destruct Hin. }
  split; [done|]. rewrite check_hit by done. by eexists.
Qed.

(** X17: when the path registered for a tag cannot be opened, the
    verification escapes with [OSError] before the seed is deleted: the state
    is unchanged and the challenge is still pending. *)
Theorem verify_unreadable_file
  (t : string) (proof : option string) (st : server) (path seed : string) :
  file_db st !! t = Some path -> path <> ""%string ->
  pending st t = Some seed -> seed <> ""%string ->
  disk st !! path = None ->
  verify_ownership (Some t) proof st = (st, RespRaised OSError)
  /\ pending (verify_ownership (Some t) proof st).1 t = Some seed.
Proof.
  intros Hpath Hp Hseed Hs Hfile.
  assert (verify_ownership (Some t) proof st = (st, RespRaised OSError)) as Hver.
  { pose proof (verify_cases (Some t) proof st) as Hc.
    assert (generate_server_proof (disk st) path seed = Raise OSError) as Hgen.
    { unfold generate_server_proof, get_file_blocks. by rewrite open_missing. }
    unfold verify_ownership. unfold pending in Hseed. rewrite Hpath, Hseed.
    cbn [truthy default from_option]. unfold id.
    destruct (String.eqb_spec path ""); [done|].
    destruct (String.eqb_spec seed ""); [done|].
    cbn [negb orb]. by rewrite Hgen. }
  by rewrite Hver.
Qed.

(** X18: the answers each handler can give to a request whose body is a
    JSON object (a form, for the upload) and whose tag and proof fields are
    absent, [null] or texts: the dedup check answers its 400 error, New or
    Exists and does not raise; the upload answers one of its two 400 errors,
    Uploaded with the file name sent when the save returned, or escapes with
    the [OSError] of a save that raised; the verification answers its 404
    error, Verified or Failed, or escapes with [TypeError] (no tag) or
    [OSError] (stored file unreadable), and nothing else. *)
Theorem handler_answers (st st' : server) (r : request) (resp : response) :
  handle st r = (st', resp) ->
  match r with
  | CheckTag _ =>
      resp = BadRequest "File tag missing." \/ resp = RespNew
      \/ exists seed, resp = RespExists seed
  | RegisterContent file _ save =>
      resp = BadRequest "No file part." \/ resp = BadRequest "Invalid request."
      \/ (exists name content names stored,
            file = Some (name, content) /\ save = Saved names stored
            /\ resp = RespUploaded name)
      \/ (resp = RespRaised OSError /\ exists names stored, save = SaveRaised names stored)
  | SubmitProof tag _ =>
      resp = NotFound \/ resp = RespVerified \/ resp = RespFailed
      \/ (resp = RespRaised TypeError /\ tag = None)
      \/ resp = RespRaised OSError
  end.
Proof.
  intros Hrun. destruct r as [tag | file tag save | tag proof]; cbn [handle] in Hrun.
  - destruct (truthy tag) eqn:Htag;
      [|rewrite check_missing_tag in Hrun by done; injection Hrun as _ <-; auto].
    apply truthy_true in Htag as (t & -> & Hne).
    destruct (file_db st !! t) as [path|] eqn:Hin.
    + rewrite check_hit in Hrun by (by rewrite ?Hin). injection Hrun as _ <-. eauto.
    + rewrite check_miss in Hrun by done. injection Hrun as _ <-. auto.
  - destruct file as [[name content]|]; [|injection Hrun as _ <-; auto].
    unfold upload_full_file in Hrun.
    destruct (String.eqb name "" || negb (truthy tag)); [injection Hrun as _ <-; auto|].
    destruct save as [names stored | names stored]; injection Hrun as _ <-.
    + repeat right. split; [done | by eexists _, _].
    + right. right. left. by exists name, content, names, stored.
  - apply verify_run in Hrun.
    destruct Hrun as [-> | | t path seed e ? ? ? ? ? Hgen | ].
    + right. right. right. by left.
    + by left.
    + apply server_raises_only_OSError in Hgen as ->. by repeat right.
    + case_decide; auto.
Qed.

(** X19: when the stored file of a tag has at most 4096 bytes the server
    proof is [None], so a pending challenge is answered Verified exactly
    when the request carries no proof, and Failed for every proof text; the
    seed is consumed either way. *)
Theorem small_file_verification
  (t : string) (proof : option string) (st : server)
  (path seed : string) (content : list byte) :
  file_db st !! t = Some path -> path <> ""%string ->
  pending st t = Some seed -> seed <> ""%string ->
  disk st !! path = Some content -> (length content <= 4096)%nat ->
  (verify_ownership (Some t) proof st).2
  = (match proof with
     | None => RespVerified
     | Some _ => RespFailed
     end)
  /\ pending (verify_ownership (Some t) proof st).1 t = None.
Proof.
  intros Hpath Hp Hseed Hs Hfile Hlen.
  assert (generate_server_proof (disk st) path seed = Ok None) as Hgen.
  { unfold generate_server_proof, get_file_blocks, open. rewrite Hfile.
    cbn [mbind result_bind]. apply small_resp_gen.
    pose proof (two_blocks_iff content) as Htwo. rewrite BLOCK_SIZE_val in Htwo. lia. }
  rewrite (verify_checked t proof st path seed None) by done.
  cbn [fst snd]. split.
  - destruct proof; by case_decide.
  - unfold pending. cbn [set_file_db file_db]. apply lookup_delete_eq.
Qed.

(** X20: seeds live in [file_db] beside the registrations: once a hit has
    been issued for a registered tag, the key [tag + '_seed'] is itself
    answered as a registered tag, though no upload carried it, and gets a
    seed of its own. *)
Theorem seed_key_is_answered_as_registered (t : string) (st : server) :
  t <> ""%string -> is_Some (file_db st !! t) ->
  exists st1 seed1 st2 seed2,
    handle_upload_check (Some t) st = (st1, RespExists seed1)
    /\ handle_upload_check (Some (seed_key t)) st1 = (st2, RespExists seed2)
    /\ pending st2 (seed_key t) = Some seed2
    /\ pending st2 t = Some seed1.
Proof.
  intros Hne Hin.
  assert (seed_key t <> ""%string) as Hkey.
  { intros Heq. apply (f_equal String.length) in Heq. unfold seed_key in Heq.
    rewrite string_length_app in Heq. simpl in Heq. lia. }
  exists (issued t st), (next_seed st), (issued (seed_key t) (issued t st)),
    (next_seed (issued t st)).
  split; [by apply check_hit|]. split.
  - apply check_hit; [done|]. fold (pending (issued t st) t).
    rewrite issued_pending. by eexists.
  - split; [apply issued_pending|].
    unfold pending. change (file_db (issued (seed_key t) (issued t st)))
      with (<[seed_key (seed_key t) := next_seed (issued t st)]> (file_db (issued t st))).
    rewrite lookup_insert_ne by apply seed_key_neq. apply issued_pending.
Qed.

(** ** Concrete runs of the further properties *)

Lemma get_file_tag_content_addressed_witness :
  get_file_tag demo_disk "server_storage/small.txt" = Ok (hex (sha256 one_block_content)).
Proof.
  apply (proj1 (get_file_tag_content_addressed demo_disk ∅
                  "server_storage/small.txt" "" one_block_content
                  ltac:(vm_compute; reflexivity))).
Defined.

Lemma get_file_tag_format_witness :
  is_digest_text (hex (sha256 one_block_content)).
Proof.
  apply (proj1 (get_file_tag_format demo_disk "server_storage/small.txt"
                  (hex (sha256 one_block_content)) ltac:(vm_compute; reflexivity))).
Defined.

Lemma get_file_blocks_count_witness :
  exists blocks,
    get_file_blocks demo_disk "server_storage/big.txt" = Ok blocks
    /\ length blocks = ((length two_block_content + 4095) / 4096)%nat
    /\ (blocks = [] <-> two_block_content = []).
Proof.
  apply (get_file_blocks_count demo_disk "server_storage/big.txt" two_block_content).
  vm_compute. reflexivity.
Defined.

Lemma generate_user_proof_applies_witness :
  generate_user_proof demo_disk "server_storage/small.txt" "5eed"
  = Raise (ValueError too_small_message).
Proof.
  apply (proj2 (proj2 (generate_user_proof_applies demo_disk "server_storage/small.txt" "5eed")
                  one_block_content ltac:(vm_compute; reflexivity))).
  unfold one_block_content. rewrite repeat_length. lia.
Defined.

Lemma proof_format_witness :
  is_digest_text "b408d960dd5e64398dc67e52cffcd4799d3c67d72ac942c250c2c9e9d22677a2".
Proof.
  apply (proof_format demo_disk "server_storage/big.txt" "00").
  left. vm_compute. reflexivity.
Defined.

Lemma prg_mask_bytes_witness : prg "ab1" 2 = prg "ab" 12.
Proof.
  apply (proj2 (proj2 (prg_mask_bytes "ab" 12)) "ab1"%string 2). reflexivity.
Defined.

Lemma engines_exceptions_witness :
  OSError = OSError \/ OSError = ValueError too_small_message.
Proof.
  apply (proj1 (engines_exceptions ∅ "nowhere.txt" "5eed" OSError)). reflexivity.
Defined.

Lemma upload_validation_witness :
  (upload_full_file None (Some "ab"%string) (Saved [] []) idle_server).1 = idle_server.
Proof.
  apply (proj2 (upload_validation None (Some "ab"%string) (Saved [] []) idle_server)
           "No file part."%string).
  reflexivity.
Defined.

Lemma upload_stores_and_registers_witness :
  let st' := (handle (boot ∅ demo_entropy) aliased_upload).1 in
  file_db st' !! "ab"%string = Some "server_storage/./small.txt"%string
  /\ disk st' !! "server_storage/./small.txt"%string = Some one_block_content
  /\ disk st' !! "server_storage/small.txt"%string = Some one_block_content.
Proof.
  destruct (upload_stores_and_registers
              (Some ("./small.txt"%string, one_block_content)) (Some "ab"%string)
              (Saved ["server_storage/small.txt"%string] one_block_content)
              (boot ∅ demo_entropy) (handle (boot ∅ demo_entropy) aliased_upload).1
              "./small.txt" ltac:(vm_compute; reflexivity))
    as (content & t & names & stored & path & _ & [= <-] & [= <- <-] & _ & _ & -> & Hdb & _
        & Hdisk & _).
  cbn zeta. split; [exact Hdb|]. split; [exact Hdisk|]. vm_compute. reflexivity.
Defined.

Lemma same_filename_overwrites_witness :
  exists path,
    file_db (serve (boot ∅ demo_entropy)
               [RegisterContent (Some ("f.bin"%string, [x61])) (Some "ab"%string)
                  (Saved [] [x61]);
                RegisterContent (Some ("f.bin"%string, [x62])) (Some "cd"%string)
                  (Saved [] [x62])]).1 !! "ab"%string = Some path
    /\ disk (serve (boot ∅ demo_entropy)
               [RegisterContent (Some ("f.bin"%string, [x61])) (Some "ab"%string)
                  (Saved [] [x61]);
                RegisterContent (Some ("f.bin"%string, [x62])) (Some "cd"%string)
                  (Saved [] [x62])]).1 !! path = Some [x62].
Proof.
  destruct (same_filename_overwrites "f.bin" [x61] [x62] "ab" "cd" [] [] [x61] [x62]
              (boot ∅ demo_entropy)
              (upload_full_file (Some ("f.bin"%string, [x61])) (Some "ab"%string)
                 (Saved [] [x61]) (boot ∅ demo_entropy)).1
              (serve (boot ∅ demo_entropy)
                 [RegisterContent (Some ("f.bin"%string, [x61])) (Some "ab"%string)
                    (Saved [] [x61]);
                  RegisterContent (Some ("f.bin"%string, [x62])) (Some "cd"%string)
                    (Saved [] [x62])]).1
              ltac:(done) ltac:(vm_compute; reflexivity) ltac:(vm_compute; reflexivity))
    as (path & H1 & _ & Hdisk & _).
  by exists path.
Defined.

Lemma honest_claimant_is_verified_witness :
  exists st1 st2 st3 seed proof,
    upload_full_file (Some ("big.txt"%string, two_block_content)) (Some "ab"%string)
      (Saved [] two_block_content) (boot ∅ demo_entropy)
    = (st1, RespUploaded "big.txt")
    /\ handle_upload_check (Some "ab"%string) st1 = (st2, RespExists seed)
    /\ generate_user_proof demo_disk "server_storage/big.txt" seed = Ok proof
    /\ verify_ownership (Some "ab"%string) (Some proof) st2 = (st3, RespVerified)
    /\ forall proof', verify_ownership (Some "ab"%string) proof' st3 = (st3, NotFound).
Proof.
  apply (honest_claimant_is_verified "big.txt" two_block_content "ab" []
           (boot ∅ demo_entropy) demo_disk "server_storage/big.txt").
  - done.
  - done.
  - vm_compute. reflexivity.
  - unfold two_block_content. rewrite repeat_length. lia.
Defined.

Lemma unserved_requests_change_nothing_witness :
  (handle idle_server failed_upload).2 = RespRaised OSError
  /\ (handle idle_server failed_upload).1 = idle_server.
Proof.
  split; [vm_compute; reflexivity|].
  destruct (unserved_requests_change_nothing idle_server
              (handle idle_server failed_upload).1 failed_upload (RespRaised OSError)
              ltac:(vm_compute; reflexivity) ltac:(right; right; by eexists))
    as (_ & _ & _ & [Hsame | (_ & _ & Hsame)]).
  - exact Hsame.
  - exact (Hsame eq_refl).
Defined.

Lemma handlers_frame_witness :
  disk (issued "ab" demo_server) = disk demo_server.
Proof.
  destruct (handlers_frame demo_server (issued "ab" demo_server)
              (CheckTag (Some "ab"%string)) (RespExists (next_seed demo_server))
              ltac:(vm_compute; reflexivity))
    as (_ & _ & Hdisk & _).
  exact Hdisk.
Defined.

Lemma seeds_consume_entropy_in_order_witness :
  issued_seeds (serve (boot ∅ demo_entropy) two_checks).2
  = map (fun k => hex (entropy_window demo_entropy 0 k))
        (seq 0 (length (issued_seeds (serve (boot ∅ demo_entropy) two_checks).2))).
Proof.
  apply (proj2 (proj2 (seeds_consume_entropy_in_order two_checks (boot ∅ demo_entropy)
                         (serve (boot ∅ demo_entropy) two_checks).1
                         (serve (boot ∅ demo_entropy) two_checks).2
                         ltac:(vm_compute; reflexivity)))).
Defined.

Lemma issued_seed_decodes_witness :
  unhex (next_seed demo_server) = entropy_window demo_entropy 0 0.
Proof.
  apply (proj1 (issued_seed_decodes (Some "ab"%string) (Some "ab"%string)
                  demo_server (issued "ab" demo_server)
                  demo_server (issued "ab" demo_server)
                  (next_seed demo_server) (next_seed demo_server)
                  ltac:(vm_compute; reflexivity) ltac:(vm_compute; reflexivity))).
Defined.

Lemma registration_persists_witness :
  is_Some (file_db (serve demo_server verify_then_check).1 !! "ab"%string).
Proof.
  apply (proj1 (registration_persists "ab" verify_then_check demo_server
                  (serve demo_server verify_then_check).1
                  (serve demo_server verify_then_check).2
                  ltac:(done) ltac:(reflexivity)
                  ltac:(exists "server_storage/small.txt"%string; vm_compute; reflexivity)
                  ltac:(vm_compute; reflexivity))).
Defined.

Lemma verify_unreadable_file_witness :
  verify_ownership (Some "ab"%string) (Some "c0ffee"%string) orphan_server
  = (orphan_server, RespRaised OSError).
Proof.
  apply (proj1 (verify_unreadable_file "ab" (Some "c0ffee"%string) orphan_server
                  "server_storage/gone.txt" "00ff"
                  ltac:(vm_compute; reflexivity) ltac:(done)
                  ltac:(vm_compute; reflexivity) ltac:(done)
                  ltac:(vm_compute; reflexivity))).
Defined.

Lemma handler_answers_witness :
  (handle idle_server (CheckTag None)).2 = BadRequest "File tag missing."
  \/ (handle idle_server (CheckTag None)).2 = RespNew
  \/ exists seed, (handle idle_server (CheckTag None)).2 = RespExists seed.
Proof.
  apply (handler_answers idle_server (handle idle_server (CheckTag None)).1
           (CheckTag None) (handle idle_server (CheckTag None)).2).
  vm_compute. reflexivity.
Defined.

Lemma small_file_verification_witness :
  (verify_ownership (Some "ab"%string) None demo_server).2 = RespVerified.
Proof.
  apply (proj1 (small_file_verification "ab" None demo_server
                  "server_storage/small.txt" "00ff" one_block_content
                  ltac:(vm_compute; reflexivity) ltac:(done)
                  ltac:(vm_compute; reflexivity) ltac:(done)
                  ltac:(vm_compute; reflexivity)
                  ltac:(unfold one_block_content; rewrite repeat_length; lia))).
Defined.

Lemma seed_key_is_answered_as_registered_witness :
  exists st1 seed1 st2 seed2,
    handle_upload_check (Some "ab"%string) idle_server = (st1, RespExists seed1)
    /\ handle_upload_check (Some (seed_key "ab")) st1 = (st2, RespExists seed2)
    /\ pending st2 (seed_key "ab") = Some seed2
    /\ pending st2 "ab" = Some seed1.
Proof.
  apply (seed_key_is_answered_as_registered "ab" idle_server); [done|].
  exists "server_storage/small.txt"%string. vm_compute. reflexivity.
Defined.

(** ** Verification against the specification's fold *)

Lemma server_resp_gen_expected (blocks : list (list byte)) (seed : string) :
  server_resp_gen blocks seed = Ok (expected_proof seed blocks).
Proof.
  destruct blocks as [|b1 [|b2 rest]].
  - apply small_resp_gen. cbn [length]. lia.
  - apply small_resp_gen. cbn [length]. lia.
  - apply server_resp_gen_chain.
Qed.

Lemma verify_expected (t : string) (proof : option string) (st : server)
    (path seed : string) (content : list byte) :
  file_db st !! t = Some path -> path <> ""%string ->
  pending st t = Some seed -> seed <> ""%string ->
  disk st !! path = Some content ->
  verify_ownership (Some t) proof st
  = (set_file_db (delete (seed_key t) (file_db st)) st,
     if decide (proof = expected_proof seed (read_blocks content))
     then RespVerified else RespFailed).
Proof.
  intros Hpath Hp Hseed Hs Hfile.
  apply (verify_checked t proof st path seed); [done .. |].
  unfold generate_server_proof, get_file_blocks, open. rewrite Hfile.
  cbn [mbind result_bind]. apply server_resp_gen_expected.
Qed.

(** X21: with a pending seed and a readable stored file, the verification
    deletes the seed and compares the submitted proof with the proof the
    specification words: on a stored file of more than 4096 bytes, cut into
    blocks [b1, b2, rest...], the answer is Verified exactly when the request
    carries the hex text of the chained fold of those blocks under the
    pending seed, and Failed for every other proof and for an absent one. *)
Theorem verify_decides_by_chained_fold
  (t : string) (proof : option string) (st : server)
  (path seed : string) (content : list byte) :
  file_db st !! t = Some path -> path <> ""%string ->
  pending st t = Some seed -> seed <> ""%string ->
  disk st !! path = Some content -> (4096 < length content)%nat ->
  exists b1 b2 rest,
    read_blocks content = b1 :: b2 :: rest
    /\ verify_ownership (Some t) proof st
       = (set_file_db (delete (seed_key t) (file_db st)) st,
          if decide (proof = Some (hex (chained_fold seed b1 b2 rest)))
          then RespVerified else RespFailed)
    /\ ((verify_ownership (Some t) proof st).2 = RespVerified
        <-> proof = Some (hex (chained_fold seed b1 b2 rest)))
    /\ ((verify_ownership (Some t) proof st).2 = RespFailed
        <-> proof <> Some (hex (chained_fold seed b1 b2 rest))).
Proof.
  intros Hpath Hp Hseed Hs Hfile Hlen.
  assert (2 <= length (read_blocks content))%nat as Htwo.
  { apply two_blocks_iff. rewrite BLOCK_SIZE_val. lia. }
  destruct (at_least_two _ Htwo) as (b1 & b2 & rest & Hblocks).
  exists b1, b2, rest. split; [done|].
  pose proof (verify_expected t proof st path seed content Hpath Hp Hseed Hs Hfile) as Hver.
  rewrite Hblocks in Hver. cbn [expected_proof] in Hver.
  rewrite Hver. cbn [snd]. split; [done|].
  case_decide; split; split; intros; done.
Qed.

(** ** The pending challenge along a run *)

Lemma pending_issued_other (t u : string) (st : server) :
  u <> t -> pending (issued u st) t = pending st t.
Proof.
  intros Hne. unfold pending, issued. cbn [file_db].
  apply lookup_insert_ne. intros Heq. by apply seed_key_inj in Heq.
Qed.

(** One request whose tag does not end in [_seed] moves the pending seed
    of every tag as the trace event says. *)
Lemma pending_step (t : string) (st st' : server) (r : request) (resp : response) :
  plain_request r = true -> handle st r = (st', resp) ->
  pending st' t = outstanding_after t (pending st t) (r, resp).
Proof.
  intros Hplain Hrun.
  destruct r as [tag | file tag save | tag proof];
    unfold plain_request in Hplain; cbn [request_tag handle] in Hplain, Hrun.
  - destruct (truthy tag) eqn:Htag.
    + apply truthy_true in Htag as (u & -> & Hne).
      destruct (file_db st !! u) as [path|] eqn:Hin.
      * rewrite check_hit in Hrun by (by rewrite ?Hin). injection Hrun as <- <-.
        cbn [outstanding_after]. case_decide as Hu.
        -- subst u. apply issued_pending.
        -- by apply pending_issued_other.
      * rewrite check_miss in Hrun by done. by injection Hrun as <- <-.
    + rewrite check_missing_tag in Hrun by done. injection Hrun as <- <-.
      by destruct tag.
  - apply upload_run in Hrun.
    destruct Hrun as [msg _ | name content u names stored _ Hname -> _ _
                     | name content u names stored _ Hname -> _ _].
    + by destruct tag.
    + done.
    + apply negb_true_iff in Hplain. cbn [outstanding_after].
      unfold pending. cbn [file_db]. apply lookup_insert_ne.
      by apply not_seed_key.
  - apply verify_run in Hrun.
    destruct Hrun as [-> | u -> _ | u path seed e -> _ _ _ _ _
                     | u path seed sp -> _ _ _ _ _].
    + done.
    + done.
    + done.
    + assert (pending (set_file_db (delete (seed_key u) (file_db st)) st) t
              = if decide (u = t) then None else pending st t) as Hdel.
      { unfold pending. cbn [file_db set_file_db]. case_decide as Hu.
        - subst u. apply lookup_delete_eq.
        - apply lookup_delete_ne. intros Heq. by apply seed_key_inj in Heq. }
      rewrite Hdel.
      destruct (decide (proof = sp)); cbn [outstanding_after]; by case_decide.
Qed.

Lemma pending_serve (t : string) (rs : list request) (st st' : server)
    (trace : list (request * response)) :
  forallb plain_request rs = true -> serve st rs = (st', trace) ->
  pending st' t = fold_left (outstanding_after t) trace (pending st t).
Proof.
  revert st st' trace. induction rs as [|r rs IH]; intros st st' trace Hplain Hrun;
    cbn [serve forallb] in Hrun, Hplain.
  - by injection Hrun as <- <-.
  - apply andb_true_iff in Hplain as [Hr Hrs].
    destruct (handle st r) as [st1 resp] eqn:Hstep.
    destruct (serve st1 rs) as [st2 trace'] eqn:Hrest.
    injection Hrun as <- <-. cbn [fold_left].
    rewrite <- (pending_step t st st1 r resp Hr Hstep). by apply IH.
Qed.

(** X22: along every run from start-up whose tags do not end in [_seed],
    each tag has at most one pending challenge, and it is the seed of the
    last hit answered for the tag since the last verification of the tag
    that was answered Verified or Failed; an earlier unconsumed seed is
    gone, and the next verification is decided with the latest one. *)
Theorem pending_is_last_issued_seed
  (d : gmap string (list byte)) (rnd : nat -> byte) (rs : list request)
  (st : server) (trace : list (request * response)) (t : string) :
  forallb plain_request rs = true ->
  serve (boot d rnd) rs = (st, trace) ->
  pending st t = outstanding t trace
  /\ forall proof st' r,
       verify_ownership (Some t) proof st = (st', r) ->
       match outstanding t trace with
       | None => r = NotFound /\ st' = st
       | Some seed =>
           exists path content,
             file_db st !! t = Some path /\ disk st !! path = Some content
             /\ r = (if decide (proof = expected_proof seed (read_blocks content))
                     then RespVerified else RespFailed)
             /\ pending st' t = None
       end.
Proof.
  intros Hplain Hrun.
  assert (pending st t = outstanding t trace) as Hpend.
  { rewrite (pending_serve t rs (boot d rnd) st trace Hplain Hrun). done. }
  split; [done|]. intros proof st' r Hver. rewrite <- Hpend.
  assert (store_ok st) as Hok by eauto with store.
  destruct (pending st t) as [seed|] eqn:Hseed.
  - destruct Hok as [Hc Hp].
    destruct (Hp _ _ Hseed (is_seed_key_seed_key t))
      as (Hs & u & Heq & Hu & [path Hpath]).
    apply seed_key_inj in Heq as <-.
    destruct (Hc _ _ Hpath Hu) as (Hpne & content & Hfile).
    rewrite (verify_expected t proof st path seed content) in Hver by done.
    injection Hver as <- <-. exists path, content. repeat split; [done .. |].
    unfold pending. cbn [file_db set_file_db]. apply lookup_delete_eq.
  - rewrite verify_rejected in Hver by (right; unfold pending in Hseed; by rewrite Hseed).
    by injection Hver as <- <-.
Qed.

(** ** Concrete runs of the two properties above *)

Lemma verify_decides_by_chained_fold_witness :
  exists b1 b2 rest,
    read_blocks two_block_content = b1 :: b2 :: rest
    /\ verify_ownership (Some "cd"%string) (Some "c0ffee"%string) big_server
       = (set_file_db (delete (seed_key "cd") (file_db big_server)) big_server,
          if decide (Some "c0ffee"%string = Some (hex (chained_fold "00" b1 b2 rest)))
          then RespVerified else RespFailed)
    /\ ((verify_ownership (Some "cd"%string) (Some "c0ffee"%string) big_server).2
        = RespVerified
        <-> Some "c0ffee"%string = Some (hex (chained_fold "00" b1 b2 rest)))
    /\ ((verify_ownership (Some "cd"%string) (Some "c0ffee"%string) big_server).2
        = RespFailed
        <-> Some "c0ffee"%string <> Some (hex (chained_fold "00" b1 b2 rest))).
Proof.
  apply (verify_decides_by_chained_fold "cd" (Some "c0ffee"%string) big_server
           "server_storage/big.txt" "00" two_block_content
           ltac:(vm_compute; reflexivity) ltac:(done)
           ltac:(vm_compute; reflexivity) ltac:(done)
           ltac:(vm_compute; reflexivity)
           ltac:(unfold two_block_content; rewrite repeat_length; lia)).
Defined.

Lemma pending_is_last_issued_seed_witness :
  pending (serve (boot ∅ demo_entropy) two_checks).1 "ab"
  = outstanding "ab" (serve (boot ∅ demo_entropy) two_checks).2.
Proof.
  apply (proj1 (pending_is_last_issued_seed ∅ demo_entropy two_checks
                  (serve (boot ∅ demo_entropy) two_checks).1
                  (serve (boot ∅ demo_entropy) two_checks).2 "ab"
                  ltac:(vm_compute; reflexivity) ltac:(vm_compute; reflexivity))).
Defined.

(** The run of the witness: the second seed is the pending one. *)
Example second_seed_is_pending :
  outstanding "ab" (serve (boot ∅ demo_entropy) two_checks).2
  = Some "737a81888f969da4abb2b9c0c7ced5dc"%string.
Proof. vm_compute. reflexivity. Qed.

(** The proof of the two-block file under seed [00] is accepted once. *)
Example two_block_proof_is_verified :
  (verify_ownership (Some "cd"%string)
     (Some "b408d960dd5e64398dc67e52cffcd4799d3c67d72ac942c250c2c9e9d22677a2"%string)
     big_server).2 = RespVerified
  /\ (verify_ownership (Some "cd"%string) None big_server).2 = RespFailed.
Proof. vm_compute. done. Qed.

(** ** Where the shared dictionary breaks the protocol *)

(** C3 (failing run): after an upload and a hit for [ab], the dedup check
    answers Exists for [ab_seed] and issues it a seed; the verification of
    [ab_seed] then finds that seed pending, takes the seed of [ab] for the
    stored path, and escapes with [OSError] whatever the proof: the answer is
    none of NotFound, Verified and Failed, and the seed stays pending. *)
Theorem verify_after_seed_key_hit_raises :
  let run := serve (boot ∅ demo_entropy) seed_key_hit in
  map snd run.2
  = [RespUploaded "x.bin";
     RespExists "030a11181f262d343b424950575e656c";
     RespExists "737a81888f969da4abb2b9c0c7ced5dc"]
  /\ pending run.1 "ab_seed" = Some "737a81888f969da4abb2b9c0c7ced5dc"%string
  /\ file_db run.1 !! "ab_seed"%string = Some "030a11181f262d343b424950575e656c"%string
  /\ forall proof,
       verify_ownership (Some "ab_seed"%string) proof run.1
       = (run.1, RespRaised OSError).
Proof.
  cbn zeta. split; [vm_compute; reflexivity|]. split; [vm_compute; reflexivity|].
  split; [vm_compute; reflexivity|].
  intros proof.
  rewrite (surjective_pairing (verify_ownership _ _ _)).
  pose proof (verify_cases (Some "ab_seed"%string) proof
                (serve (boot ∅ demo_entropy) seed_key_hit).1) as Hcase.
  destruct Hcase as [Hnone | t Ht Hmiss | t path seed e Ht Hpath _ Hseed _ Hgen
                    | t path seed sp Ht Hpath _ Hseed _ Hgen].
  - discriminate Hnone.
  - injection Ht as <-. vm_compute in Hmiss. by destruct Hmiss.
  - apply server_raises_only_OSError in Hgen as ->. reflexivity.
  - injection Ht as <-. vm_compute in Hpath. injection Hpath as <-.
    vm_compute in Hseed. injection Hseed as <-. vm_compute in Hgen. discriminate Hgen.
Qed.

(** C6 (failing run): a seed is issued for [ab]; an upload under the tag
    [ab_seed] then overwrites it, so the pending entry of [ab] is the path of
    that upload and not the seed last issued; the proof the claimant
    computes with the issued seed is compared with one computed from the
    path text and answered Failed. *)
Theorem pending_seed_overwritten_by_upload :
  let run := serve (boot ∅ demo_entropy) seed_overwritten in
  map snd run.2
  = [RespUploaded "big.txt";
     RespExists "030a11181f262d343b424950575e656c";
     RespUploaded "x.bin"]
  /\ pending run.1 "ab" = Some "server_storage/x.bin"%string
  /\ exists proof,
       generate_user_proof demo_disk "server_storage/big.txt"
         "030a11181f262d343b424950575e656c" = Ok proof
       /\ verify_ownership (Some "ab"%string) (Some proof) run.1
          = (set_file_db (delete "ab_seed"%string (file_db run.1)) run.1, RespFailed).
Proof.
  cbn zeta. split; [vm_compute; reflexivity|]. split; [vm_compute; reflexivity|].
  eexists. split; vm_compute; reflexivity.
Qed.
